(** * run_analysis.py: the capture / extract / analyse / merge controller

    A shallow embedding of [run_analysis.py] and the properties its
    design note states about it.

    The script is sequential glue around a file system, one HTTP service
    and two command-line tools.  The embedding therefore is a small
    state-and-exception monad over

    - a file system ([FS]): directories as finite maps from file names to
      file contents, and the single files the script opens by path;
    - a chronological trace of the actions the script performs on the
      outside world (processes started and signalled, HTTP requests,
      files written and removed, warnings printed);
    - a [World]: everything the script does not decide itself, i.e. the
      platform, the answers of the capture service, the exit statuses of
      the node tools and the JSON parser of the Python library.

    Strings.  A Python [str] is the Rocq string of its UTF-8 text.  A
    [str] can hold a lone surrogate, which UTF-8 cannot encode: JSON
    escapes such as [\ud800] produce one, and so does the name of a file
    whose bytes are not UTF-8 (there the surrogates [U+DC80] to [U+DCFF]
    stand for the bytes that could not be decoded).  A lone surrogate
    stands here as the three bytes [ED A0..BF xx] that Python's
    [surrogatepass] handler gives it, so that [utf8_encodable] is a test
    on the string.  Writing a string that fails this test to a file
    opened with [encoding='utf-8'] raises [UnicodeEncodeError].

    Console.  The console of Python 3 encodes with UTF-8.  Its error
    handler is [strict], or, as in the C locale, [surrogateescape], which
    lets the surrogates [U+DC80] to [U+DCFF] pass; which of the two is a
    parameter of the world.  A [print] whose line interpolates a value
    read from a file, from the capture service or from a directory
    listing is modelled by what it can do to the control flow: it raises
    [UnicodeEncodeError] when the console cannot encode the line.  The
    printed lines themselves are recorded for the two warnings of the
    merge step only; banners and progress lines, which are constant text
    and numbers, are not modelled, and neither are the lines of the
    analyzer functions, which show the paths and commands they were
    given (the words of the command line and the location of the script
    are taken to be printable).

    Files.  Directories hold regular files only; name matching is the
    case-sensitive one of POSIX; reading a file that exists succeeds, and
    so does opening a file for writing in a directory that exists.
    Exceptions that arise from the data (a file that is not JSON, a JSON
    value that is not an object, a value without a length, a text that
    cannot be encoded, captured output of a tool that is not text) are
    modelled, since the script's [try]/[except] blocks are written
    against them. *)

From Stdlib Require Import ZArith Ascii String List Bool Lia.
From Stdlib Require Import Floats.SpecFloat.
From stdpp Require Import base option list gmap strings fin_maps pretty.

Set Warnings "-register-all".

(** ** Data *)

(** The values [json.load] returns.  A Python [dict] is a finite map; a
    number is an [int] or a [float]. *)
Inductive json : Type :=
| JNull
| JBool (b : bool)
| JInt (z : Z)
| JFloat (f : spec_float)
| JStr (s : string)
| JArr (l : list json)
| JObj (m : gmap string json).

(** The exceptions that can travel through the script.  [SystemExit] is
    what [sys.exit] raises; it is a [BaseException] but not an
    [Exception], so [except Exception] lets it pass. *)
Inductive exn : Type :=
| SystemExit (code : Z)
| JSONDecodeError
| AttributeError
| TypeError
| FileNotFoundError
| UnicodeEncodeError
| UnicodeDecodeError
| TransportError
| TimeoutExpired.

Definition is_Exception (e : exn) : bool :=
  match e with
  | SystemExit _ => false
  | _ => true
  end.

(** An HTTP response: [status_code] and the body [text]. *)
Record response : Type := Response { status_code : Z; text : string }.

(** Directories and the file system. *)
Record FS : Type := mkFS {
  dirs : gmap string (gmap string string);
  files : gmap string string
}.

(** What the script does to the outside world, in the order it does it.
    [EvWrite] is a file opened for writing and closed again, with the
    text the file then holds. *)
Inductive event : Type :=
| EvPopen (argv : list string) (cwd : string)
| EvGet (url : string) (timeout : Z)
| EvSleep (secs : Z)
| EvTerminate
| EvWait (timeout : Z)
| EvPost (url : string) (config : json) (timeout : Z)
| EvRun (argv : list string) (cwd : option string)
| EvUnlink (dir name : string)
| EvWrite (dir name content : string)
| EvPrint (line : string).

(** Everything outside the script. *)
Record World : Type := mkWorld {
  win32 : bool;                       (* sys.platform == 'win32' *)
  surrogateescape : bool;             (* sys.stdout.errors == 'surrogateescape';
                                         'strict' otherwise *)
  executable : string;                (* sys.executable *)
  server_pid : Z;                     (* server_process.pid *)
  health : nat -> option Z;           (* i-th GET /health: its status code,
                                         [None] when the request raises *)
  post_map : json -> FS -> option response * FS;
                                      (* POST /map: the response ([None] when
                                         the request raises) and the files the
                                         capture service leaves behind *)
  wait_ok : bool;                     (* server_process.wait(timeout=5)
                                         returns, or raises TimeoutExpired *)
  run_node : list string -> string -> FS -> (Z * option string) * FS;
                                      (* a node tool run by subprocess.run, by
                                         command and cwd: its return code, the
                                         text of its stderr ([None] when what
                                         it wrote to stdout or stderr is not
                                         text in the encoding of the locale)
                                         and the files it leaves *)
  absolute : string -> string;        (* Path.absolute *)
  json_load : string -> option json   (* json.load; [None] when it raises *)
}.

(** ** The monad: state, trace and exceptions *)

Record state : Type := mkState { fs : FS; trace : list event }.

Inductive result (A : Type) : Type :=
| Ok (a : A)
| Raise (e : exn).
Arguments Ok {A} a.
Arguments Raise {A} e.

Definition M (A : Type) : Type := state -> result A * state.

Definition ret {A} (a : A) : M A := fun s => (Ok a, s).

Definition bind {A B} (m : M A) (k : A -> M B) : M B :=
  fun s =>
    match m s with
    | (Ok a, s') => k a s'
    | (Raise e, s') => (Raise e, s')
    end.

Definition raise {A} (e : exn) : M A := fun s => (Raise e, s).

Declare Scope py_scope.
Delimit Scope py_scope with py.
Notation "x <~ c1 ;; c2" := (bind c1 (fun x => c2))
  (at level 100, c1 at next level, right associativity) : py_scope.
Notation "c1 ;;; c2" := (bind c1 (fun _ => c2))
  (at level 100, right associativity) : py_scope.
Open Scope py_scope.

(** [try: body except <catches>: handler] *)
Definition try_except {A} (body : M A) (catches : exn -> bool)
    (handler : exn -> M A) : M A :=
  fun s =>
    match body s with
    | (Ok a, s') => (Ok a, s')
    | (Raise e, s') => if catches e then handler e s' else (Raise e, s')
    end.

(** [try: body finally: final].  The final block runs whatever the body
    did; an exception of the final block replaces the body's outcome. *)
Definition try_finally {A} (body : M A) (final : M unit) : M A :=
  fun s =>
    match body s with
    | (r, s') =>
        match final s' with
        | (Ok _, s'') => (r, s'')
        | (Raise e, s'') => (Raise e, s'')
        end
    end.

Definition emit (e : event) : M unit :=
  fun s => (Ok tt, {| fs := fs s; trace := trace s ++ [e] |}).

(** [print(line)] of a line that can be encoded. *)
Definition print (line : string) : M unit := emit (EvPrint line).

(** ** Local variables

    A computation that also reads and assigns the local variables of
    the function it belongs to.  An assignment made inside a [try] block
    is still there when the handler runs, so the variables travel with
    an exception as they do with a value. *)

Definition L (V A : Type) : Type := V -> state -> (result A * V) * state.

Definition lret {V A} (a : A) : L V A := fun v s => ((Ok a, v), s).

Definition lbind {V A B} (m : L V A) (k : A -> L V B) : L V B :=
  fun v s =>
    match m v s with
    | ((Ok a, v'), s') => k a v' s'
    | ((Raise e, v'), s') => ((Raise e, v'), s')
    end.

(** A computation that leaves the local variables alone. *)
Definition lift {V A} (m : M A) : L V A :=
  fun v s => let '(r, s') := m s in ((r, v), s').

(** [x = f(x)] *)
Definition assign {V} (f : V -> V) : L V unit := fun v s => ((Ok tt, f v), s).

Definition ltry_except {V A} (body : L V A) (catches : exn -> bool)
    (handler : exn -> L V A) : L V A :=
  fun v s =>
    match body v s with
    | ((Ok a, v'), s') => ((Ok a, v'), s')
    | ((Raise e, v'), s') =>
        if catches e then handler e v' s' else ((Raise e, v'), s')
    end.

(** The block in which the variables live, from their initial values;
    its value is what the variables hold at its end. *)
Definition with_locals {V} (init : V) (block : L V unit) : M V :=
  fun s =>
    match block init s with
    | ((Ok _, v), s') => (Ok v, s')
    | ((Raise e, _), s') => (Raise e, s')
    end.

Declare Scope local_scope.
Delimit Scope local_scope with local.
Notation "x <~ c1 ;; c2" := (lbind c1 (fun x => c2))
  (at level 100, c1 at next level, right associativity) : local_scope.
Notation "c1 ;;; c2" := (lbind c1 (fun _ => c2))
  (at level 100, right associativity) : local_scope.

(** [for x in xs: body(x)] *)
Fixpoint lfor_each {V A : Type} (xs : list A) (body : A -> L V unit)
    : L V unit :=
  match xs with
  | [] => lret tt
  | x :: rest => lbind (body x) (fun _ => lfor_each rest body)
  end.

(** ** Text and its encoding *)

(** The first two bytes of a lone surrogate: [ED] and a byte from [A0]
    on.  (The characters up to [U+D7FF] begin [ED 80..9F].) *)
Definition starts_surrogate (a b : Ascii.ascii) : bool :=
  (nat_of_ascii a =? 237)%nat && (160 <=? nat_of_ascii b)%nat.

(** The first two bytes of a lone surrogate from [U+DC80] to [U+DCFF]:
    [ED B2] and [ED B3].  These surrogates stand for a byte that could
    not be decoded, and the handler [surrogateescape] encodes them as
    that byte. *)
Definition starts_escape (a b : Ascii.ascii) : bool :=
  (nat_of_ascii a =? 237)%nat &&
  ((nat_of_ascii b =? 178)%nat || (nat_of_ascii b =? 179)%nat).

(** The bytes [a b] begin a character that the handler refuses:
    [surrogateescape] when [escapes] holds, [strict] otherwise. *)
Definition refused (escapes : bool) (a b : Ascii.ascii) : bool :=
  starts_surrogate a b && negb (escapes && starts_escape a b).

(** [s.encode('utf-8', errors)] succeeds. *)
Fixpoint encodable (escapes : bool) (s : string) : bool :=
  match s with
  | EmptyString => true
  | String a rest =>
      match rest with
      | EmptyString => true
      | String b _ => negb (refused escapes a b) && encodable escapes rest
      end
  end.

(** [s.encode('utf-8')] succeeds: [s] holds no lone surrogate.  This is
    what a file opened with [encoding='utf-8'] asks of a text. *)
Definition utf8_encodable (s : string) : bool := encodable false s.

(** [s.encode('utf-8', sys.stdout.errors)] succeeds: the console can
    show [s]. *)
Definition console_encodable (w : World) (s : string) : bool :=
  encodable (surrogateescape w) s.

(** What an f-string makes of a JSON value is [str(v)].  A [str] stands
    as it is; every other value is text that can be encoded, since the
    [repr] of the strings inside a list or a dict escapes what cannot be
    printed. *)
Definition printable (w : World) (v : json) : bool :=
  match v with
  | JStr s => console_encodable w s
  | _ => true
  end.

(** [print(f"... {v1} ... {v2} ...")]: the line is constant text with
    the given values in it.  It raises when the console cannot encode
    the line; the line itself is not recorded. *)
Definition print_fmt (w : World) (values : list json) : M unit :=
  if forallb (printable w) values then ret tt else raise UnicodeEncodeError.

(** Text mode on Windows writes every line feed as carriage return and
    line feed. *)
Fixpoint crlf (s : string) : string :=
  match s with
  | EmptyString => EmptyString
  | String c rest =>
      if Ascii.eqb c "010"%char
      then String "013"%char (String "010"%char (crlf rest))
      else String c (crlf rest)
  end.

(** The bytes a file opened in text mode with [encoding='utf-8'] gets
    for a text that can be encoded. *)
Definition text_mode (w : World) (s : string) : string :=
  if win32 w then crlf s else s.

(** ** Paths and names *)

Definition path_join (a b : string) : string := a +:+ "/" +:+ b.

Definition BASE_DIR : string := ".".
Definition NOIZZ_DIR : string := path_join BASE_DIR "Noizz2025".
Definition STATIC_ANALYSIS_DIR : string := path_join BASE_DIR "Static_Analysis".
Definition MAPPING_OUTPUT_DIR : string := path_join NOIZZ_DIR "mapping_output".
Definition JS_FILES_JSON_DIR : string := path_join MAPPING_OUTPUT_DIR "js_files".
Definition EXTRACTED_JS_DIR : string := path_join MAPPING_OUTPUT_DIR "extracted_js".
Definition OUTPUTS_DIR : string := path_join BASE_DIR "outputs".

(** [name.rfind(c)] *)
Fixpoint rfind (c : Ascii.ascii) (name : string) : option nat :=
  match name with
  | EmptyString => None
  | String a rest =>
      match rfind c rest with
      | Some i => Some (S i)
      | None => if Ascii.eqb a c then Some 0%nat else None
      end
  end.

(** [PurePath.stem]: the name without its last suffix; a name whose only
    dot is the leading one, or the trailing one, has no suffix. *)
Definition stem (name : string) : string :=
  match rfind "."%char name with
  | Some i =>
      if (0 <? i)%nat && (i <? String.length name - 1)%nat
      then substring 0 i name
      else name
  | None => name
  end.

(** The names a pattern [*<suffix>] of [Path.glob] matches: those that
    end in [suffix]. *)
Fixpoint ends_with (suffix name : string) : bool :=
  if String.eqb name suffix then true
  else match name with
       | EmptyString => false
       | String _ rest => ends_with suffix rest
       end.

(** [fnmatch] for the two patterns of the script, ["*.js"] and
    ["*.json"]: a leading star and a literal rest. *)
Definition fnmatch (pattern name : string) : bool :=
  match pattern with
  | String "*" suffix => ends_with suffix name
  | _ => String.eqb pattern name
  end.

(** [Path.parents], outermost first: the path up to each of its
    separators. *)
Fixpoint parents_from (seen rest : string) : list string :=
  match rest with
  | EmptyString => []
  | String c rest' =>
      if Ascii.eqb c "/"%char
      then seen :: parents_from (seen +:+ "/") rest'
      else parents_from (seen +:+ String c EmptyString) rest'
  end.

Definition parents (path : string) : list string := parents_from "" path.

(** ** File-system primitives *)

Definition set_dir (d : string) (entries : gmap string string) (f : FS) : FS :=
  {| dirs := <[d := entries]> (dirs f); files := files f |}.

(** [d.exists()] *)
Definition exists_dir (d : string) : M bool :=
  fun s =>
    (Ok (match dirs (fs s) !! d with Some _ => true | None => false end), s).

(** One directory made when it is missing, empty. *)
Definition make_dir (f : FS) (d : string) : FS :=
  match dirs f !! d with
  | Some _ => f
  | None => set_dir d ∅ f
  end.

(** The directories [d.mkdir(parents=True)] may have to make: the
    ancestors of [d], outermost first, and [d]; the directory of the
    script is there. *)
Definition to_make (d : string) : list string :=
  List.filter (fun p => negb (String.eqb p BASE_DIR)) (parents d) ++ [d].

(** [d.mkdir(parents=True, exist_ok=True)] *)
Definition mkdir (d : string) : M unit :=
  fun s => (Ok tt, {| fs := foldl make_dir (fs s) (to_make d);
                      trace := trace s |}).

(** [list(d.glob(pattern))]; a directory that does not exist yields
    nothing. *)
Definition glob (d pattern : string) : M (list string) :=
  fun s =>
    (Ok (match dirs (fs s) !! d with
         | Some entries =>
             List.filter (fnmatch pattern) (map fst (map_to_list entries))
         | None => []
         end), s).

(** [(d / name).unlink()] *)
Definition unlink (d name : string) : M unit :=
  fun s =>
    match dirs (fs s) !! d with
    | Some entries =>
        match entries !! name with
        | Some _ =>
            (Ok tt, {| fs := set_dir d (delete name entries) (fs s);
                       trace := trace s ++ [EvUnlink d name] |})
        | None => (Raise FileNotFoundError, s)
        end
    | None => (Raise FileNotFoundError, s)
    end.

(** [with open(d / name, 'r') as f: f.read()] *)
Definition read_text (d name : string) : M string :=
  fun s =>
    match dirs (fs s) !! d with
    | Some entries =>
        match entries !! name with
        | Some content => (Ok content, s)
        | None => (Raise FileNotFoundError, s)
        end
    | None => (Raise FileNotFoundError, s)
    end.

(** [with open(d / name, 'w', encoding='utf-8') as f: f.write(content)].
    [open] makes the file, or empties the one that is there; [f.write]
    then encodes the whole text before any of it reaches the file, so a
    text that cannot be encoded raises and leaves the file empty. *)
Definition write_text (w : World) (d name content : string) : M unit :=
  fun s =>
    match dirs (fs s) !! d with
    | Some entries =>
        if utf8_encodable content then
          (Ok tt,
           {| fs := set_dir d (<[name := text_mode w content]> entries) (fs s);
              trace := trace s ++ [EvWrite d name (text_mode w content)] |})
        else
          (Raise UnicodeEncodeError,
           {| fs := set_dir d (<[name := ""]> entries) (fs s);
              trace := trace s ++ [EvWrite d name ""] |})
    | None => (Raise FileNotFoundError, s)
    end.

(** [with open(path, 'r') as f: f.read()] for a file addressed by its
    whole path. *)
Definition read_file (path : string) : M string :=
  fun s =>
    match files (fs s) !! path with
    | Some content => (Ok content, s)
    | None => (Raise FileNotFoundError, s)
    end.

(** [json.load] / [json.loads] / [response.json()] *)
Definition loads (w : World) (source : string) : M json :=
  match json_load w source with
  | Some v => ret v
  | None => raise JSONDecodeError
  end.

(** ** Python values *)

(** [bool(v)] *)
Definition truthy (v : json) : bool :=
  match v with
  | JNull => false
  | JBool b => b
  | JInt z => negb (z =? 0)%Z
  | JFloat (S754_zero _) => false
  | JFloat _ => true
  | JStr s => negb (String.eqb s "")
  | JArr l => match l with [] => false | _ :: _ => true end
  | JObj m => negb (size m =? 0)%nat
  end.

(** [isinstance(v, str)] *)
Definition isinstance_str (v : json) : bool :=
  match v with
  | JStr _ => true
  | _ => false
  end.

(** [len(v)]: a [TypeError] for a value without a length. *)
Definition len (v : json) : M nat :=
  match v with
  | JStr s => ret (String.length s)
  | JArr l => ret (length l)
  | JObj m => ret (size m)
  | _ => raise TypeError
  end.

(** [data.get(key, default)]: only a [dict] has [get]. *)
Definition dict_get (data : json) (key : string) (default : json) : M json :=
  match data with
  | JObj m => ret (match m !! key with Some v => v | None => default end)
  | _ => raise AttributeError
  end.

(** [data[key] = v]: every other JSON value refuses the assignment of a
    string key. *)
Definition dict_set (data : json) (key : string) (v : json) : M json :=
  match data with
  | JObj m => ret (JObj (<[key := v]> m))
  | _ => raise TypeError
  end.

(** [s] as a condition, for an optional string: [None] and [''] are
    false. *)
Definition nonempty (s : option string) : bool :=
  match s with
  | Some (String _ _) => true
  | _ => false
  end.

(** [for x in xs: acc = body(x, acc)] *)
Fixpoint for_each {A S : Type} (xs : list A) (body : A -> S -> M S) (acc : S)
    : M S :=
  match xs with
  | [] => ret acc
  | x :: rest => acc' <~ body x acc ;; for_each rest body acc'
  end.

(** ** Step 2: [extract_js_from_json_files] *)

(** [content and isinstance(content, str) and len(content) > 0], with
    the text to write when the condition holds.  [len] is reached for a
    [str] only, so it cannot raise here. *)
Definition usable (content : json) : option string :=
  if truthy content && isinstance_str content then
    match content with
    | JStr c => if (0 <? String.length c)%nat then Some c else None
    | _ => None
    end
  else None.

(** The local variables of the loop: [extracted_count] and
    [failed_count]. *)
Definition counters : Type := (nat * nat)%type.

(** [extracted_count += 1] and [failed_count += 1] *)
Definition count_extracted : L counters unit :=
  assign (fun c => (S (fst c), snd c)).

Definition count_failed : L counters unit :=
  assign (fun c => (fst c, S (snd c))).

(** The body of the loop over [json_files].  Each branch of the [try]
    block ends with a [print] that comes after the increment of its
    counter: the line of the first shows the name of the script (and a
    number), the line of the second the name of the record, its status
    and its error.  The line of the handler shows the name of the record
    and the exception, whose text can always be encoded. *)
Definition extract_one (w : World) (json_file : string) : L counters unit :=
  ltry_except
    (source <~ lift (read_text JS_FILES_JSON_DIR json_file) ;;
     data <~ lift (loads w source) ;;
     content <~ lift (dict_get data "content" JNull) ;;
     url <~ lift (dict_get data "url" (JStr "")) ;;
     match usable content with
     | Some c =>
         let js_filename := stem json_file +:+ ".js" in
         lift (write_text w EXTRACTED_JS_DIR js_filename c) ;;;
         count_extracted ;;;
         lift (print_fmt w [JStr js_filename])
     | None =>
         error <~ lift (dict_get data "error" (JStr "No content")) ;;
         status <~ lift (dict_get data "status" (JStr "unknown")) ;;
         count_failed ;;;
         lift (print_fmt w [JStr json_file; status; error])
     end)%local
    is_Exception
    (fun _ => (count_failed ;;; lift (print_fmt w [JStr json_file]))%local).

(** The loop. *)
Definition extract_loop (w : World) (json_files : list string)
    : L counters unit :=
  lfor_each json_files (extract_one w).

Definition extract_js_from_json_files (w : World) : M nat :=
  mkdir EXTRACTED_JS_DIR ;;;
  stale <~ glob EXTRACTED_JS_DIR "*.js" ;;
  for_each stale (fun f _ => unlink EXTRACTED_JS_DIR f) tt ;;;
  json_files <~ glob JS_FILES_JSON_DIR "*.json" ;;
  counts <~ with_locals (0%nat, 0%nat) (extract_loop w json_files) ;;
  ret (fst counts).

(** ** Step 1: [run_noizz2025] *)

(** [httpx.get("http://localhost:8000/health", timeout=2)], the [i]-th
    one. *)
Definition http_get_health (w : World) (i : nat) : M Z :=
  emit (EvGet "http://localhost:8000/health" 2) ;;;
  match health w i with
  | Some status => ret status
  | None => raise TransportError
  end.

(** [httpx.post("http://localhost:8000/map", json={"config": config},
    timeout=600)] *)
Definition http_post_map (w : World) (config : json) : M response :=
  fun s =>
    let '(r, f) := post_map w config (fs s) in
    let s' := {| fs := f;
                 trace := trace s ++
                          [EvPost "http://localhost:8000/map" config 600] |} in
    match r with
    | Some resp => (Ok resp, s')
    | None => (Raise TransportError, s')
    end.

(** The loop [for i in range(max_wait)], from attempt [i] with [n]
    attempts left; its value is [server_ready].  The bare [except]
    catches everything. *)
Fixpoint wait_for_server (w : World) (n i : nat) : M bool :=
  match n with
  | O => ret false
  | S n' =>
      ready <~ try_except
                 (status <~ http_get_health w i ;;
                  ret (status =? 200)%Z)
                 (fun _ => true)
                 (fun _ => ret false) ;;
      if ready then ret true
      else emit (EvSleep 1) ;;; wait_for_server w n' (S i)
  end.

(** [s or default] for an optional string. *)
Definition or_default (s : option string) (default : string) : string :=
  match s with
  | Some (String a rest) => String a rest
  | _ => default
  end.

(** The [finally] block: stop the server, then wait for it. *)
Definition stop_server (w : World) : M unit :=
  (if win32 w
   then emit (EvRun ["taskkill"; "/F"; "/T"; "/PID"; pretty (server_pid w)]
                None)
   else emit EvTerminate) ;;;
  emit (EvWait 5) ;;;
  if wait_ok w then ret tt else raise TimeoutExpired.

(** The [try] block of [run_noizz2025]: load the configuration, show
    the start URL, post the mapping request, read the answer and show
    it.  The lines that show a count made by [len] are constant text and
    a number. *)
Definition request_mapping (w : World) (config_file start_url : option string)
    : M bool :=
  let config_path :=
    or_default config_file (path_join NOIZZ_DIR "config.json") in
  source <~ read_file config_path ;;
  config <~ loads w source ;;
  config <~ (match start_url with
             | Some (String a rest) =>
                 dict_set config "start_url" (JStr (String a rest))
             | _ => ret config
             end) ;;
  shown <~ dict_get config "start_url" JNull ;;
  print_fmt w [shown] ;;;
  response <~ http_post_map w config ;;
  if (status_code response =? 200)%Z then
    result <~ loads w (text response) ;;
    ui <~ dict_get result "ui_endpoints" (JArr []) ;;
    n_ui <~ len ui ;;
    srv <~ dict_get result "server_endpoints" (JArr []) ;;
    n_srv <~ len srv ;;
    n_js <~ dict_get result "js_files_count" (JInt 0) ;;
    print_fmt w [n_js] ;;;
    out <~ dict_get result "output_directory" JNull ;;
    print_fmt w [out] ;;;
    ret true
  else
    print_fmt w [JInt (status_code response)] ;;;
    print_fmt w [JStr (text response)] ;;;
    ret false.

Definition run_noizz2025 (w : World) (config_file start_url : option string)
    : M bool :=
  emit (EvPopen [executable w; "api_server.py"] NOIZZ_DIR) ;;;
  let max_wait := 30%nat in
  server_ready <~ wait_for_server w max_wait 0 ;;
  if negb server_ready then
    emit EvTerminate ;;;
    ret false
  else
    try_finally
      (try_except
         (request_mapping w config_file start_url)
         is_Exception
         (fun _ => ret false))
      (stop_server w).

(** ** Step 3: [run_static_analysis] and [run_static_analysis_only] *)

(** [subprocess.run(cmd, cwd=cwd)] of a node tool: the return code of
    the tool, and the text of its stderr for the caller that captures
    it. *)
Definition subprocess_run (w : World) (cmd : list string) (cwd : string)
    : M (Z * option string) :=
  fun s =>
    let '(r, f) := run_node w cmd cwd (fs s) in
    (Ok r, {| fs := f; trace := trace s ++ [EvRun cmd (Some cwd)] |}).

(** The command line of the analyzer for a target directory. *)
Definition analysis_cmd (target : string) (output_file : option string)
    : list string :=
  ["node"; "main.js"; target; "--deep"; "--security"; "--performance"] ++
  match output_file with
  | Some (String a rest) => ["--json"; "--export"; String a rest]
  | _ => []
  end.

Definition run_static_analysis (w : World) (output_file : option string)
    : M bool :=
  present <~ exists_dir EXTRACTED_JS_DIR ;;
  if negb present then ret false
  else
    js_files <~ glob EXTRACTED_JS_DIR "*.js" ;;
    match js_files with
    | [] => ret false
    | _ :: _ =>
        let cmd := analysis_cmd EXTRACTED_JS_DIR output_file in
        result <~ subprocess_run w cmd STATIC_ANALYSIS_DIR ;;
        if (fst result =? 0)%Z then ret true else ret false
    end.

(** [Path(js_directory) if js_directory else EXTRACTED_JS_DIR]; a path
    is the string that names it. *)
Definition target_dir (js_directory : option string) : string :=
  match js_directory with
  | Some (String a rest) => String a rest
  | _ => EXTRACTED_JS_DIR
  end.

Definition run_static_analysis_only (w : World)
    (js_directory output_file : option string) : M bool :=
  let target := target_dir js_directory in
  present <~ exists_dir target ;;
  if negb present then ret false
  else
    js_files <~ glob target "*.js" ;;
    match js_files with
    | [] => ret false
    | _ :: _ =>
        let cmd := analysis_cmd (absolute w target) output_file in
        result <~ subprocess_run w cmd STATIC_ANALYSIS_DIR ;;
        ret (fst result =? 0)%Z
    end.

(** ** Step 4: [convert_and_merge_outputs] *)

Definition merge_cmd : list string := ["node"; "run_pipeline.js"; "--skip-crawl"].

Definition merged_file : string := path_join OUTPUTS_DIR "api_calls_merged.json".

(** [path.exists()] for a file addressed by its whole path. *)
Definition exists_file (path : string) : M bool :=
  fun s =>
    (Ok (match files (fs s) !! path with Some _ => true | None => false end), s).

(** [capture_output=True, text=True]: what the tool wrote is decoded
    before [subprocess.run] returns, and that raises when it is not
    text. *)
Definition decoded (captured : option string) : M string :=
  match captured with
  | Some text => ret text
  | None => raise UnicodeDecodeError
  end.

(** Nothing of the merge step is inside a [try] block: what raises
    there, the decoding of the tool's output, the load of the merged
    output file, a [get] or a [print] of a value of the summary, ends
    the function. *)
Definition convert_and_merge_outputs (w : World) : M unit :=
  result <~ subprocess_run w merge_cmd BASE_DIR ;;
  stderr <~ decoded (snd result) ;;
  (if negb (fst result =? 0)%Z
   then print ("Warning: Merge step had issues: " +:+ stderr)
   else ret tt) ;;;
  present <~ exists_file merged_file ;;
  if present then
    source <~ read_file merged_file ;;
    data <~ loads w source ;;
    summary <~ dict_get data "summary" (JObj ∅) ;;
    total <~ dict_get summary "total_calls_found" (JInt 0) ;;
    print_fmt w [total] ;;;
    unique <~ dict_get summary "unique_calls" (JInt 0) ;;
    print_fmt w [unique] ;;;
    sources <~ dict_get summary "sources" (JObj ∅) ;;
    from_noizz <~ dict_get sources "noizz25" (JInt 0) ;;
    print_fmt w [from_noizz] ;;;
    sources' <~ dict_get summary "sources" (JObj ∅) ;;
    from_static <~ dict_get sources' "static_analysis" (JInt 0) ;;
    print_fmt w [from_static]
  else
    print "Warning: Merged output file not found".

(** ** The command line: [argparse]

    [main] declares six arguments with [add_argument]: four that store
    the word that follows them and two [store_true] flags; [argparse]
    adds [-h] and [--help].  No argument is declared in a mutually
    exclusive group.  What follows is [ArgumentParser.parse_args] of
    CPython 3.11 for this parser: the classification of the words
    ([_parse_optional], [_get_option_tuples]) and their consumption from
    left to right ([consume_optional], [take_action]).  Digits are the
    ASCII ones. *)

(** The namespace [parse_args] returns. *)
Record Namespace : Type := mkNamespace {
  url : option string;
  config : option string;
  skip_capture : bool;
  analyze_only : bool;
  js_dir : option string;
  output : option string
}.

Definition no_args : Namespace :=
  {| url := None; config := None; skip_capture := false;
     analyze_only := false; js_dir := None; output := None |}.

Inductive action : Type :=
| Help | Url | Config | SkipCapture | AnalyzeOnly | JsDir | Output.

(** [parser._option_string_actions], in the order of registration. *)
Definition option_string_actions : list (string * action) :=
  [("-h", Help); ("--help", Help);
   ("--url", Url); ("-u", Url);
   ("--config", Config); ("-c", Config);
   ("--skip-capture", SkipCapture);
   ("--analyze-only", AnalyzeOnly);
   ("--js-dir", JsDir);
   ("--output", Output); ("-o", Output)].

Definition lookup_option (s : string) : option action :=
  snd <$> List.find (fun p => String.eqb (fst p) s) option_string_actions.

(** [nargs]: a [store] action takes one argument, [store_true] and
    [help] take none. *)
Definition takes_argument (a : action) : bool :=
  match a with
  | Url | Config | JsDir | Output => true
  | Help | SkipCapture | AnalyzeOnly => false
  end.

(** [arg.split('=', 1)], when there is a ['='] in [arg]. *)
Fixpoint split_eq (arg : string) : option (string * string) :=
  match arg with
  | EmptyString => None
  | String c rest =>
      if Ascii.eqb c "="%char then Some (EmptyString, rest)
      else match split_eq rest with
           | Some (before, after) => Some (String c before, after)
           | None => None
           end
  end.

Definition is_digit (c : Ascii.ascii) : bool :=
  (48 <=? nat_of_ascii c)%nat && (nat_of_ascii c <=? 57)%nat.

(** [\d*] and [\d+] *)
Fixpoint digits (s : string) : bool :=
  match s with
  | EmptyString => true
  | String c rest => is_digit c && digits rest
  end.

Definition digits1 (s : string) : bool :=
  match s with
  | EmptyString => false
  | String _ _ => digits s
  end.

(** [\d*\.\d+] *)
Fixpoint decimal (s : string) : bool :=
  match s with
  | EmptyString => false
  | String c rest =>
      if Ascii.eqb c "."%char then digits1 rest
      else is_digit c && decimal rest
  end.

(** [$] also matches before a line feed that ends the string. *)
Fixpoint chomp (s : string) : string :=
  match s with
  | EmptyString => EmptyString
  | String c rest =>
      match rest with
      | EmptyString => if Ascii.eqb c "010"%char then EmptyString else s
      | String _ _ => String c (chomp rest)
      end
  end.

(** [_negative_number_matcher]: [^-\d+$|^-\d*\.\d+$] *)
Definition negative_number (arg : string) : bool :=
  match arg with
  | String "-" rest => digits1 (chomp rest) || decimal (chomp rest)
  | _ => false
  end.

(** [' ' in arg] *)
Fixpoint has_space (arg : string) : bool :=
  match arg with
  | EmptyString => false
  | String c rest => Ascii.eqb c " "%char || has_space rest
  end.

(** How [argparse] reads one word: as an argument (['A']), as the
    separator [--], as an option of the parser with the argument that
    is part of the word, as an option the parser does not have, or as an
    abbreviation that fits several options. *)
Inductive word_class : Type :=
| Positional
| Separator
| Known (a : action) (option_string : string) (explicit_arg : option string)
| Unknown
| Ambiguous.

(** [_get_option_tuples]: the options a word abbreviates.  A word that
    starts with two dashes abbreviates the options that start with what
    stands before its ['=']; a word that starts with one dash is a
    one-letter option with its argument attached. *)
Definition get_option_tuples (arg : string)
    : list (action * string * option string) :=
  match arg with
  | String "-" (String "-" _) =>
      let '(option_prefix, explicit_arg) :=
        match split_eq arg with
        | Some (before, after) => (before, Some after)
        | None => (arg, None)
        end in
      flat_map (fun p => if String.prefix option_prefix (fst p)
                         then [(snd p, fst p, explicit_arg)] else [])
        option_string_actions
  | String "-" (String c short_explicit_arg) =>
      let short_option_prefix := String "-" (String c EmptyString) in
      flat_map (fun p => if String.eqb (fst p) short_option_prefix
                         then [(snd p, fst p, Some short_explicit_arg)]
                         else if String.prefix arg (fst p)
                         then [(snd p, fst p, None)] else [])
        option_string_actions
  | _ => []
  end.

(** [_parse_optional] *)
Definition parse_optional (arg : string) : word_class :=
  match arg with
  | EmptyString => Positional
  | String c _ =>
      if negb (Ascii.eqb c "-"%char) then Positional
      else
        match lookup_option arg with
        | Some a => Known a arg None
        | None =>
            if (String.length arg =? 1)%nat then Positional
            else
              match
                match split_eq arg with
                | Some (option_string, explicit_arg) =>
                    match lookup_option option_string with
                    | Some a => Some (a, option_string, explicit_arg)
                    | None => None
                    end
                | None => None
                end
              with
              | Some (a, option_string, explicit_arg) =>
                  Known a option_string (Some explicit_arg)
              | None =>
                  match get_option_tuples arg with
                  | _ :: _ :: _ => Ambiguous
                  | [(a, option_string, explicit_arg)] =>
                      Known a option_string explicit_arg
                  | [] =>
                      if negative_number arg then Positional
                      else if has_space arg then Positional
                      else Unknown
                  end
              end
        end
  end.

(** The words with their classes: every word after the separator is an
    argument. *)
Fixpoint classify (argv : list string) : list (string * word_class) :=
  match argv with
  | [] => []
  | arg :: rest =>
      if String.eqb arg "--"
      then (arg, Separator) :: map (fun a => (a, Positional)) rest
      else (arg, parse_optional arg) :: classify rest
  end.

Definition is_ambiguous (p : string * word_class) : bool :=
  match snd p with
  | Ambiguous => true
  | _ => false
  end.

(** Where the argument of an action comes from. *)
Inductive arg_source : Type :=
| NoArgument
| Explicit (value : string)
| NextWord.

(** The loop of [consume_optional] for a word with an explicit
    argument: an action that takes an argument takes it; a one-letter
    option that takes none hands the rest of the word on as further
    one-letter options, the last of which may take the next word; an
    argument given to anything else is an error ([None]). *)
Fixpoint explicit_actions (a : action) (single_dash : bool)
    (explicit_arg : string) : option (list (action * arg_source)) :=
  if takes_argument a then Some [(a, Explicit explicit_arg)]
  else
    match explicit_arg with
    | EmptyString => None
    | String c rest =>
        if single_dash then
          match lookup_option (String "-" (String c EmptyString)) with
          | Some a' =>
              match rest with
              | EmptyString =>
                  Some [(a, NoArgument);
                        (a', if takes_argument a' then NextWord
                             else NoArgument)]
              | String _ _ =>
                  match explicit_actions a' true rest with
                  | Some acts => Some ((a, NoArgument) :: acts)
                  | None => None
                  end
              end
          | None => None
          end
        else None
    end.

(** [option_string[1] not in chars] *)
Definition single_dash (option_string : string) : bool :=
  match option_string with
  | String _ (String c _) => negb (Ascii.eqb c "-"%char)
  | _ => false
  end.

(** The actions of one option word. *)
Definition word_actions (a : action) (option_string : string)
    (explicit_arg : option string) : option (list (action * arg_source)) :=
  match explicit_arg with
  | Some e => explicit_actions a (single_dash option_string) e
  | None => Some [(a, if takes_argument a then NextWord else NoArgument)]
  end.

Definition needs_next (acts : list (action * arg_source)) : bool :=
  existsb (fun p => match snd p with NextWord => true | _ => false end) acts.

(** The value a [store] action stores.  [_get_values] removes a [--]
    from the arguments of the action, so that the argument [--], which
    can only be an explicit one, leaves the empty list: a value the
    script treats as it treats the empty string, which stands for it
    here. *)
Definition stored (src : arg_source) (next : string) : option string :=
  let value := match src with
               | Explicit v => v
               | NextWord => next
               | NoArgument => EmptyString
               end in
  Some (if String.eqb value "--" then EmptyString else value).

(** [take_action]: [help] prints the help and exits with status 0. *)
Definition take_action (a : action) (src : arg_source) (next : string)
    (ns : Namespace) : result Namespace :=
  match a with
  | Help => Raise (SystemExit 0)
  | Url =>
      Ok {| url := stored src next; config := config ns;
            skip_capture := skip_capture ns; analyze_only := analyze_only ns;
            js_dir := js_dir ns; output := output ns |}
  | Config =>
      Ok {| url := url ns; config := stored src next;
            skip_capture := skip_capture ns; analyze_only := analyze_only ns;
            js_dir := js_dir ns; output := output ns |}
  | SkipCapture =>
      Ok {| url := url ns; config := config ns; skip_capture := true;
            analyze_only := analyze_only ns; js_dir := js_dir ns;
            output := output ns |}
  | AnalyzeOnly =>
      Ok {| url := url ns; config := config ns;
            skip_capture := skip_capture ns; analyze_only := true;
            js_dir := js_dir ns; output := output ns |}
  | JsDir =>
      Ok {| url := url ns; config := config ns;
            skip_capture := skip_capture ns; analyze_only := analyze_only ns;
            js_dir := stored src next; output := output ns |}
  | Output =>
      Ok {| url := url ns; config := config ns;
            skip_capture := skip_capture ns; analyze_only := analyze_only ns;
            js_dir := js_dir ns; output := stored src next |}
  end.

Fixpoint take_actions (acts : list (action * arg_source)) (next : string)
    (ns : Namespace) : result Namespace :=
  match acts with
  | [] => Ok ns
  | (a, src) :: rest =>
      match take_action a src next ns with
      | Ok ns' => take_actions rest next ns'
      | Raise e => Raise e
      end
  end.

(** The words from left to right.  A word that is not an option of the
    parser, and is not taken as the argument of one, is kept as an
    extra; extras are an error at the end, after every action was
    taken.  An option whose argument is missing, or that was given one
    it does not take, is an error at once, before its actions are
    taken.  Every error ends the process with status 2. *)
Fixpoint consume (words : list (string * word_class)) (ns : Namespace)
    (extras : bool) : result Namespace :=
  match words with
  | [] => if extras then Raise (SystemExit 2) else Ok ns
  | (word, Known a option_string explicit_arg) :: rest =>
      match word_actions a option_string explicit_arg with
      | None => Raise (SystemExit 2)
      | Some acts =>
          if needs_next acts then
            match rest with
            | (value, Positional) :: rest' =>
                match take_actions acts value ns with
                | Ok ns' => consume rest' ns' extras
                | Raise e => Raise e
                end
            | _ => Raise (SystemExit 2)
            end
          else
            match take_actions acts EmptyString ns with
            | Ok ns' => consume rest ns' extras
            | Raise e => Raise e
            end
      end
  | _ :: rest => consume rest ns true
  end.

(** [parser.parse_args()] on [sys.argv[1:]], from the namespace of the
    defaults.  An ambiguous abbreviation is an error before any action
    is taken. *)
Definition parse_args (argv : list string) (ns : Namespace)
    : result Namespace :=
  let words := classify argv in
  if existsb is_ambiguous words then Raise (SystemExit 2)
  else consume words ns false.

(** ** The controller: [main] *)

(** [sys.exit(code)] *)
Definition sys_exit {A} (code : Z) : M A := raise (SystemExit code).

(** [main()], on [sys.argv[1:]]. *)
Definition main (w : World) (argv : list string) : M unit :=
  match parse_args argv no_args with
  | Raise e => raise e
  | Ok args =>
      (* Mode 1: only static analysis *)
      if analyze_only args then
        success <~ run_static_analysis_only w (js_dir args) (output args) ;;
        sys_exit (if success then 0 else 1)%Z
      (* Mode 2: skip capture, only extract and analyze *)
      else if skip_capture args then
        present <~ exists_dir JS_FILES_JSON_DIR ;;
        (if negb present then sys_exit 1 else ret tt) ;;;
        extracted <~ extract_js_from_json_files w ;;
        (if (0 <? extracted)%nat then
           analysed <~ run_static_analysis w (output args) ;;
           convert_and_merge_outputs w
         else
           sys_exit 1) ;;;
        sys_exit 0
      (* Mode 3: full workflow *)
      else
        captured <~ run_noizz2025 w (config args) (url args) ;;
        (if negb captured then sys_exit 1 else ret tt) ;;;
        extracted <~ extract_js_from_json_files w ;;
        (if (extracted =? 0)%nat then sys_exit 1 else ret tt) ;;;
        analysed <~ run_static_analysis w (output args) ;;
        convert_and_merge_outputs w
  end.

(** The exit status of the interpreter: 0 when [main] returns, the code
    of a [SystemExit], 1 for any other exception that reaches the top. *)
Definition exit_status {A} (r : result A) : Z :=
  match r with
  | Ok _ => 0
  | Raise (SystemExit code) => code
  | Raise _ => 1
  end.

(** ** Vocabulary of the statements about the extraction *)

(** The text the design note calls the usable content of a capture
    record: the [content] field of a record that parses to an object,
    when that field is a non-empty string. *)
Definition record_content (w : World) (source : string) : option string :=
  match json_load w source with
  | Some (JObj m) =>
      match m !! "content" with
      | Some (JStr (String a rest)) => Some (String a rest)
      | _ => None
      end
  | _ => None
  end.

(** The text the script of a record with content [c] holds once the
    record was handled: the content as the platform writes it, or
    nothing when the content cannot be encoded. *)
Definition written_text (w : World) (c : string) : string :=
  if utf8_encodable c then text_mode w c else "".

(** The script file a capture record of the source directory [src] gives
    rise to: its name and its text. *)
Definition extracted_script (w : World) (src : gmap string string)
    (name : string) : option (string * string) :=
  match src !! name with
  | Some source =>
      match record_content w source with
      | Some c => Some (stem name +:+ ".js", written_text w c)
      | None => None
      end
  | None => None
  end.

(** A record that counts as extracted: its content is usable and can be
    encoded. *)
Definition extractable (w : World) (src : gmap string string) (name : string)
    : bool :=
  match src !! name with
  | Some source =>
      match record_content w source with
      | Some c => utf8_encodable c
      | None => false
      end
  | None => false
  end.

(** A record whose script is left empty: its content is usable but
    cannot be encoded. *)
Definition emptied (w : World) (src : gmap string string) (name : string)
    : bool :=
  match src !! name with
  | Some source =>
      match record_content w source with
      | Some c => negb (utf8_encodable c)
      | None => false
      end
  | None => false
  end.

(** The line that reports a skipped record shows the [status] and the
    [error] of the record; it can be printed when both can. *)
Definition report_printable (w : World) (source : string) : bool :=
  match json_load w source with
  | Some (JObj m) =>
      printable w (default (JStr "unknown") (m !! "status")) &&
      printable w (default (JStr "No content") (m !! "error"))
  | _ => true
  end.

(** What a record whose name can be printed adds to the failure
    count. *)
Definition failures (w : World) (src : gmap string string) (name : string)
    : nat :=
  match src !! name with
  | Some source =>
      match record_content w source with
      | Some c => if utf8_encodable c then 0 else 1
      | None => if report_printable w source then 1 else 2
      end
  | None => 1
  end.

(** The records the loop gets to: all of them up to the first whose
    name cannot be printed, that one included. *)
Fixpoint handled (w : World) (names : list string) : list string :=
  match names with
  | [] => []
  | name :: rest =>
      if console_encodable w name then name :: handled w rest else [name]
  end.

(** A name the loop may be given: one that can be printed, or one that
    [glob] lists for [*.json]. *)
Definition admissible (w : World) (name : string) : Prop :=
  console_encodable w name = true ∨ fnmatch "*.json" name = true.

(** The state after the extraction directory became [out] and the
    events [evs] happened. *)
Definition with_out (st : state) (out : gmap string string)
    (evs : list event) : state :=
  {| fs := set_dir EXTRACTED_JS_DIR out (fs st); trace := trace st ++ evs |}.

Definition write_event (p : string * string) : event :=
  EvWrite EXTRACTED_JS_DIR p.1 p.2.

Definition put_script (out : gmap string string) (p : string * string)
    : gmap string string :=
  <[p.1 := p.2]> out.

(** The script files a list of capture records gives rise to, in the
    order of the records. *)
Definition scripts_of (w : World) (src : gmap string string)
    (names : list string) : list (string * string) :=
  omap (extracted_script w src) names.

(** The names [d.glob(pattern)] lists in a directory with the given
    entries. *)
Definition matching (pattern : string) (entries : gmap string string)
    : list string :=
  List.filter (fnmatch pattern) (map fst (map_to_list entries)).

Definition remove_file (entries : gmap string string) (name : string)
    : gmap string string :=
  delete name entries.

(** The entries of the extraction directory and of the source directory
    in a state; a directory that does not exist has none. *)
Definition out_entries (st : state) : gmap string string :=
  default ∅ (dirs (fs st) !! EXTRACTED_JS_DIR).

Definition src_entries (st : state) : gmap string string :=
  default ∅ (dirs (fs st) !! JS_FILES_JSON_DIR).

(** The extraction directory once its [*.js] files are removed. *)
Definition cleared (out : gmap string string) : gmap string string :=
  foldl remove_file out (matching "*.js" out).

(** The capture records of a state, in the order the loop takes them. *)
Definition records (st : state) : list string :=
  matching "*.json" (src_entries st).

(** Every capture record has a name that can be printed. *)
Definition names_printable (w : World) (st : state) : bool :=
  forallb (console_encodable w) (records st).

(** The script files one run of the extraction writes, in order. *)
Definition scripts (w : World) (st : state) : list (string * string) :=
  scripts_of w (src_entries st) (handled w (records st)).

(** The state once the extraction directory and its ancestors exist. *)
Definition prepared (st : state) : state :=
  {| fs := foldl make_dir (fs st) (to_make EXTRACTED_JS_DIR);
     trace := trace st |}.

(** The ways the design note lists for a capture record, given as the
    text of its file, to lack usable content. *)
Inductive lacks_content (w : World) (source : string) : Prop :=
| not_json :
    json_load w source = None → lacks_content w source
| not_an_object v :
    json_load w source = Some v → (∀ m, v ≠ JObj m) → lacks_content w source
| content_absent m :
    json_load w source = Some (JObj m) → m !! "content" = None →
    lacks_content w source
| content_empty m :
    json_load w source = Some (JObj m) → m !! "content" = Some (JStr "") →
    lacks_content w source
| content_not_a_string m v :
    json_load w source = Some (JObj m) → m !! "content" = Some v →
    (∀ c, v ≠ JStr c) → lacks_content w source.

(** ** Vocabulary of the statements about the capture step *)

Definition health_url : string := "http://localhost:8000/health".

(** The events of [n] unsuccessful polls of the health endpoint. *)
Fixpoint poll_events (n : nat) : list event :=
  match n with
  | O => []
  | S n' => EvGet health_url 2 :: EvSleep 1 :: poll_events n'
  end.

Definition popen_event (w : World) : event :=
  EvPopen [executable w; "api_server.py"] NOIZZ_DIR.

Definition taskkill_event (w : World) : event :=
  EvRun ["taskkill"; "/F"; "/T"; "/PID"; pretty (server_pid w)] None.

(** The events that signal the capture child process to terminate. *)
Definition stops_server (w : World) (e : event) : Prop :=
  e = EvTerminate ∨ e = taskkill_event w.

(** A computation that only ever adds events to the trace. *)
Definition extends {A} (m : M A) : Prop :=
  ∀ s, ∃ t, trace (snd (m s)) = trace s ++ t.

(** The state after the events [t] happened and no file changed. *)
Definition logged (st : state) (t : list event) : state :=
  {| fs := fs st; trace := trace st ++ t |}.

(** ** Vocabulary of the statements about the analyzer and the merge *)

(** The directory [d] is missing, or holds no file that matches [*.js]. *)
Definition without_js (st : state) (d : string) : Prop :=
  match dirs (fs st) !! d with
  | None => True
  | Some entries =>
      ∀ name, is_Some (entries !! name) → fnmatch "*.js" name = false
  end.


(** What [convert_and_merge_outputs] can read and show of a merged
    output file without raising: a JSON object whose [summary], when
    there is one, is an object whose [sources], when there is one, is an
    object, and in which the four values it shows can be printed. *)
Definition summary_readable (w : World) (source : string) : bool :=
  match json_load w source with
  | Some (JObj data) =>
      match default (JObj ∅) (data !! "summary") with
      | JObj summary =>
          printable w (default (JInt 0) (summary !! "total_calls_found")) &&
          printable w (default (JInt 0) (summary !! "unique_calls")) &&
          match default (JObj ∅) (summary !! "sources") with
          | JObj sources =>
              printable w (default (JInt 0) (sources !! "noizz25")) &&
              printable w (default (JInt 0) (sources !! "static_analysis"))
          | _ => false
          end
      | _ => false
      end
  | _ => false
  end.

(** The merged output file is absent, or readable in the sense above. *)
Definition merged_file_readable (w : World) (f : FS) : bool :=
  match files f !! merged_file with
  | None => true
  | Some source => summary_readable w source
  end.

(** What a run of the merge tool must be like for the merge step to
    return: what the tool wrote is text, and the merged output file it
    leaves is absent or readable. *)
Definition merge_returns (w : World) (merge : (Z * option string) * FS)
    : bool :=
  match snd (fst merge) with
  | Some _ => merged_file_readable w (snd merge)
  | None => false
  end.

Definition merge_warning (err : string) : event :=
  EvPrint ("Warning: Merge step had issues: " +:+ err).

Definition merged_missing_warning : event :=
  EvPrint "Warning: Merged output file not found".

(** ** Vocabulary of the statements about the command line *)

(** The namespace with [skip_capture] set. *)
Definition with_skip_capture (ns : Namespace) : Namespace :=
  {| url := url ns; config := config ns; skip_capture := true;
     analyze_only := analyze_only ns; js_dir := js_dir ns;
     output := output ns |}.

(** A result of the parser with [skip_capture] set in its namespace. *)
Definition lift_skip_capture (r : result Namespace) : result Namespace :=
  match r with
  | Ok ns => Ok (with_skip_capture ns)
  | Raise e => Raise e
  end.

(** An invocation is rejected when the process ends with the status of
    an [argparse] error and nothing was done. *)
Definition rejected (w : World) (argv : list string) (st : state) : Prop :=
  main w argv st = (Raise (SystemExit 2), st).

(** What the analysis-only mode does with a namespace. *)
Definition analysis_only_mode (w : World) (args : Namespace) : M unit :=
  success <~ run_static_analysis_only w (js_dir args) (output args) ;;
  sys_exit (if success then 0 else 1)%Z.

(** ** Vocabulary of the statements about the mapping request *)

(** The configuration sent with the mapping request: the object of the
    configuration file, with [start_url] replaced when one is given. *)
Definition sent_config (cfg : gmap string json) (start_url : option string)
    : json :=
  match start_url with
  | Some (String a rest) => JObj (<["start_url" := JStr (String a rest)]> cfg)
  | _ => JObj cfg
  end.

(** The start URL shown before the mapping request: the one given, or
    else the one of the configuration file. *)
Definition shown_start_url (cfg : gmap string json) (start_url : option string)
    : json :=
  match start_url with
  | Some (String a rest) => JStr (String a rest)
  | _ => default JNull (cfg !! "start_url")
  end.

(** [len(v)] is defined. *)
Definition sized (v : json) : bool :=
  match v with
  | JStr _ | JArr _ | JObj _ => true
  | _ => false
  end.

(** What [run_noizz2025] can read and show of the body of a 200 answer
    without raising: a JSON object whose [ui_endpoints] and
    [server_endpoints], when present, have a length, and whose
    [js_files_count] and [output_directory] can be printed. *)
Definition answer_readable (w : World) (body : string) : bool :=
  match json_load w body with
  | Some (JObj result) =>
      sized (default (JArr []) (result !! "ui_endpoints")) &&
      sized (default (JArr []) (result !! "server_endpoints")) &&
      printable w (default (JInt 0) (result !! "js_files_count")) &&
      printable w (default JNull (result !! "output_directory"))
  | _ => false
  end.

Definition post_event (config : json) : event :=
  EvPost "http://localhost:8000/map" config 600.

(** [200 <= status < 300] *)
Definition is_2xx (status : Z) : bool := (200 <=? status)%Z && (status <? 300)%Z.

(** ** Sample worlds

    The scenario of the design note: a source directory with [a.json],
    a record with content, and [b.json], a record of a failed capture.
    [sample_load] stands for [json.load] on the texts of the scenario. *)

Definition dq : string := String "034"%char EmptyString.

(** The lone surrogate [U+D800], a string that cannot be encoded, and
    the JSON escape that denotes it. *)
Definition lone_surrogate : string :=
  String "237"%char (String "160"%char (String "128"%char EmptyString)).

Definition surrogate_escape : string := "\ud800".

(** The lone surrogate [U+DCFF]: the byte [FF] in the name of a file. *)
Definition escaped_byte : string :=
  String "237"%char (String "179"%char (String "191"%char EmptyString)).

Definition line_feed : string := String "010"%char EmptyString.


Definition record_a : string :=
  "{" +:+ dq +:+ "content" +:+ dq +:+ ": " +:+ dq +:+ "console.log(1)" +:+ dq
  +:+ "}".

Definition record_b : string :=
  "{" +:+ dq +:+ "status" +:+ dq +:+ ": " +:+ dq +:+ "error" +:+ dq +:+ ", "
  +:+ dq +:+ "error" +:+ dq +:+ ": " +:+ dq +:+ "timeout" +:+ dq +:+ "}".

(** A record whose content is one lone surrogate. *)
Definition record_s : string :=
  "{" +:+ dq +:+ "content" +:+ dq +:+ ": " +:+ dq +:+ surrogate_escape +:+ dq
  +:+ "}".

(** A record of a failed capture whose error is one lone surrogate. *)
Definition record_e : string :=
  "{" +:+ dq +:+ "error" +:+ dq +:+ ": " +:+ dq +:+ surrogate_escape +:+ dq
  +:+ "}".

(** A record whose content has two lines. *)
Definition record_l : string :=
  "{" +:+ dq +:+ "content" +:+ dq +:+ ": " +:+ dq +:+ "f()\ng()" +:+ dq
  +:+ "}".

Definition config_text : string :=
  "{" +:+ dq +:+ "start_url" +:+ dq +:+ ": " +:+ dq +:+ "http://localhost:4200"
  +:+ dq +:+ "}".

Definition answer_text : string :=
  "{" +:+ dq +:+ "ui_endpoints" +:+ dq +:+ ": [], " +:+ dq +:+ "js_files_count"
  +:+ dq +:+ ": 2}".

(** A configuration whose start URL is one lone surrogate. *)
Definition unprintable_config_text : string :=
  "{" +:+ dq +:+ "start_url" +:+ dq +:+ ": " +:+ dq +:+ surrogate_escape
  +:+ dq +:+ "}".

(** An answer whose list of UI endpoints is a number. *)
Definition unsized_answer_text : string :=
  "{" +:+ dq +:+ "ui_endpoints" +:+ dq +:+ ": 5}".

(** An answer whose output directory is one lone surrogate. *)
Definition unprintable_answer_text : string :=
  "{" +:+ dq +:+ "output_directory" +:+ dq +:+ ": " +:+ dq +:+ surrogate_escape
  +:+ dq +:+ "}".

Definition merged_text : string :=
  "{" +:+ dq +:+ "summary" +:+ dq +:+ ": {" +:+ dq +:+ "unique_calls" +:+ dq
  +:+ ": 3}}".


(** A merged output file whose count of unique calls is one lone
    surrogate. *)
Definition unprintable_merged_text : string :=
  "{" +:+ dq +:+ "summary" +:+ dq +:+ ": {" +:+ dq +:+ "unique_calls" +:+ dq
  +:+ ": " +:+ dq +:+ surrogate_escape +:+ dq +:+ "}}".

Definition sample_load (source : string) : option json :=
  if String.eqb source record_a then
    Some (JObj {["content" := JStr "console.log(1)"]})
  else if String.eqb source record_b then
    Some (JObj (<["status" := JStr "error"]> {["error" := JStr "timeout"]}))
  else if String.eqb source record_s then
    Some (JObj {["content" := JStr lone_surrogate]})
  else if String.eqb source record_e then
    Some (JObj {["error" := JStr lone_surrogate]})
  else if String.eqb source record_l then
    Some (JObj {["content" := JStr ("f()" +:+ line_feed +:+ "g()")]})
  else if String.eqb source config_text then
    Some (JObj {["start_url" := JStr "http://localhost:4200"]})
  else if String.eqb source unprintable_config_text then
    Some (JObj {["start_url" := JStr lone_surrogate]})
  else if String.eqb source answer_text then
    Some (JObj (<["ui_endpoints" := JArr []]> {["js_files_count" := JInt 2]}))
  else if String.eqb source unsized_answer_text then
    Some (JObj {["ui_endpoints" := JInt 5]})
  else if String.eqb source unprintable_answer_text then
    Some (JObj {["output_directory" := JStr lone_surrogate]})
  else if String.eqb source merged_text then
    Some (JObj {["summary" := JObj {["unique_calls" := JInt 3]}]})
  else if String.eqb source unprintable_merged_text then
    Some (JObj {["summary" := JObj {["unique_calls" := JStr lone_surrogate]}]})
  else None.

(** The files the capture service leaves: the two records. *)
Definition captured (f : FS) : FS :=
  {| dirs := <[JS_FILES_JSON_DIR :=
                 <["a.json" := record_a]> {["b.json" := record_b]}]> (dirs f);
     files := files f |}.

(** A world in which the service is healthy at the third poll, answers
    the mapping request with [status] and [body], the analyzer exits
    with 0, and the merge tool exits with [merge_rc] and leaves [merged]
    as the merged output file. *)
Definition sample_world (status : Z) (body : string) (merge_rc : Z)
    (merged : option string) : World :=
  {| win32 := false;
     surrogateescape := false;
     executable := "python3";
     server_pid := 4242;
     health := fun i => if (i <? 2)%nat then None else Some 200%Z;
     post_map := fun _ f => (Some (Response status body), captured f);
     wait_ok := true;
     run_node := fun cmd _ f =>
       match cmd with
       | "node" :: "run_pipeline.js" :: _ =>
           ((merge_rc, Some "merge failed"),
            {| dirs := dirs f;
               files := match merged with
                        | Some source => <[merged_file := source]> (files f)
                        | None => delete merged_file (files f)
                        end |})
       | _ => ((0%Z, Some ""), f)
       end;
     absolute := fun p => "/srv/" +:+ p;
     json_load := sample_load |}.

(** A world in which the service never becomes healthy. *)
Definition dead_world : World :=
  {| win32 := false;
     surrogateescape := false;
     executable := "python3";
     server_pid := 4242;
     health := fun _ => None;
     post_map := fun _ f => (None, f);
     wait_ok := true;
     run_node := fun _ _ f => ((0%Z, Some ""), f);
     absolute := fun p => p;
     json_load := sample_load |}.

(** The file system before a first run: the configuration file only. *)
Definition fresh_fs : FS :=
  {| dirs := ∅;
     files := {[path_join NOIZZ_DIR "config.json" := config_text]} |}.

Definition fresh : state := {| fs := fresh_fs; trace := [] |}.

(** The file system before a first run, with a configuration whose
    start URL cannot be printed. *)
Definition misconfigured : state :=
  {| fs := {| dirs := ∅;
              files := {[path_join NOIZZ_DIR "config.json" :=
                           unprintable_config_text]} |};
     trace := [] |}.

(** A state after a capture, with a stale script and a note in the
    extraction directory. *)
Definition used : state :=
  {| fs := {| dirs := <[EXTRACTED_JS_DIR :=
                          <["old.js" := "alert(0)"]> {["notes.txt" := "keep"]}]>
                        (dirs (captured fresh_fs));
              files := files fresh_fs |};
     trace := [] |}.

(** Every stage succeeds. *)
Definition healthy_world : World :=
  sample_world 200 answer_text 0 (Some merged_text).

(** The mapping request is answered with 201 Created. *)
Definition created_world : World :=
  sample_world 201 answer_text 0 (Some merged_text).

(** The mapping request is answered with 200 and a body that is not
    JSON. *)
Definition garbled_world : World :=
  sample_world 200 "<html>" 0 (Some merged_text).

(** The mapping request is answered with 200 and an object whose list
    of UI endpoints has no length. *)
Definition unsized_answer_world : World :=
  sample_world 200 unsized_answer_text 0 (Some merged_text).

(** The mapping request is answered with 200 and an object whose output
    directory cannot be printed. *)
Definition unprintable_answer_world : World :=
  sample_world 200 unprintable_answer_text 0 (Some merged_text).





(** The healthy world in the C locale, where the console lets the
    surrogates that stand for bytes pass. *)
Definition c_locale_world : World :=
  {| win32 := win32 healthy_world;
     surrogateescape := true;
     executable := executable healthy_world;
     server_pid := server_pid healthy_world;
     health := health healthy_world;
     post_map := post_map healthy_world;
     wait_ok := wait_ok healthy_world;
     run_node := run_node healthy_world;
     absolute := absolute healthy_world;
     json_load := json_load healthy_world |}.


Definition both_modes : list string := ["--skip-capture"; "--analyze-only"].

Definition both_modes_reversed : list string :=
  ["--analyze-only"; "--skip-capture"].

Definition both_modes_abbreviated : list string := ["--skip"; "--analyze"].

(** ** Vocabulary of the further statements *)

(** The [k]-th poll of the health endpoint is the first to see status
    200. *)
Definition first_healthy (w : World) (k : nat) : Prop :=
  health w k = Some 200%Z ∧ ∀ j, (j < k)%nat → health w j ≠ Some 200%Z.

(** The object [run_noizz2025] loads as its configuration, when the
    configuration file exists and holds a JSON object. *)
Definition loaded_config (w : World) (st : state)
    (config_file : option string) : option (gmap string json) :=
  match files (fs st) !!
          or_default config_file (path_join NOIZZ_DIR "config.json") with
  | Some source =>
      match json_load w source with
      | Some (JObj cfg) => Some cfg
      | _ => None
      end
  | None => None
  end.

(** The event that stops the server in the [finally] block. *)
Definition kill_event (w : World) : event :=
  if win32 w then taskkill_event w else EvTerminate.

(** The events of a capture step whose [k]-th poll is the first healthy
    one, up to the mapping request. *)
Definition ready_events (w : World) (k : nat) : list event :=
  popen_event w :: poll_events k ++ [EvGet health_url 2].

(** The event of the analyzer run on a target directory. *)
Definition analysis_event (target : string) (output_file : option string)
    : event :=
  EvRun (analysis_cmd target output_file) (Some STATIC_ANALYSIS_DIR).

Definition merge_event : event := EvRun merge_cmd (Some BASE_DIR).

(** The directory [d] holds at least one file that matches [*.js]. *)
Definition with_js (st : state) (d : string) : Prop :=
  ∃ entries name,
    dirs (fs st) !! d = Some entries ∧
    is_Some (entries !! name) ∧ fnmatch "*.js" name = true.

(** A computation whose exceptions are all [Exception]s: it never ends
    the process by itself. *)
Definition raises_only_exceptions {A} (m : M A) : Prop :=
  ∀ s e s', m s = (Raise e, s') → is_Exception e = true.

(** The warnings of the merge step for the exit status and error output
    of the tool and the files it left; there is none when what the tool
    wrote is not text, since the step ends there. *)
Definition merge_warnings (w : World) (merge : (Z * option string) * FS)
    : list event :=
  match snd (fst merge) with
  | Some err =>
      (if (fst (fst merge) =? 0)%Z then [] else [merge_warning err])
      ++ match files (snd merge) !! merged_file with
         | Some _ => []
         | None => [merged_missing_warning]
         end
  | None => []
  end.

(** The state after the analyzer ran on the extraction directory. *)
Definition analysed (w : World) (output_file : option string) (st : state)
    : state :=
  {| fs := snd (run_node w (analysis_cmd EXTRACTED_JS_DIR output_file)
                  STATIC_ANALYSIS_DIR (fs st));
     trace := trace st ++ [analysis_event EXTRACTED_JS_DIR output_file] |}.

(** The state in which the extraction of a run of [main] starts, for the
    two modes that extract: in skip-capture mode the source directory
    must exist and nothing has happened yet; in full-pipeline mode the
    capture must have returned [True]. *)
Definition extraction_starts (w : World) (args : Namespace) (st st1 : state)
    : Prop :=
  analyze_only args = false ∧
  if skip_capture args
  then is_Some (dirs (fs st) !! JS_FILES_JSON_DIR) ∧ st1 = st
  else run_noizz2025 w (config args) (url args) st = (Ok true, st1).

(** Further sample states and worlds. *)

(** No file at all. *)
Definition bare : state :=
  {| fs := {| dirs := ∅; files := ∅ |}; trace := [] |}.

(** An extraction directory left by an earlier run, and no source
    directory. *)
Definition orphaned : state :=
  {| fs := {| dirs := {[EXTRACTED_JS_DIR :=
                          <["old.js" := "alert(0)"]> {["notes.txt" := "keep"]}]};
              files := ∅ |};
     trace := [] |}.

(** A source directory that holds the record of a failed capture only. *)
Definition barren : state :=
  {| fs := {| dirs := {[JS_FILES_JSON_DIR := {["b.json" := record_b]}]};
              files := ∅ |};
     trace := [] |}.

(** A source directory whose one record, [s.json], has a content that
    cannot be encoded. *)
Definition tainted : state :=
  {| fs := {| dirs := {[JS_FILES_JSON_DIR := {["s.json" := record_s]}]};
              files := ∅ |};
     trace := [] |}.


(** A source directory whose one record has the content of [a.json]
    and a name that is not UTF-8: the byte [FF], then [.json]. *)
Definition misnamed : state :=
  {| fs := {| dirs := {[JS_FILES_JSON_DIR :=
                          {[escaped_byte +:+ ".json" := record_a]}]};
              files := ∅ |};
     trace := [] |}.



(** Every stage succeeds, but the stopped server does not end within
    the final wait. *)
Definition hanging_world : World :=
  {| win32 := win32 healthy_world;
     surrogateescape := surrogateescape healthy_world;
     executable := executable healthy_world;
     server_pid := server_pid healthy_world;
     health := health healthy_world;
     post_map := post_map healthy_world;
     wait_ok := false;
     run_node := run_node healthy_world;
     absolute := absolute healthy_world;
     json_load := json_load healthy_world |}.

(** * Properties *)

(** ** Names *)

Example stem_plain : stem "bundle.min.json" = "bundle.min".
Proof. reflexivity. Qed.

Example stem_dotfile : stem ".json" = ".json".
Proof. reflexivity. Qed.

Lemma ends_with_unfold suffix name :
  ends_with suffix name =
  if String.eqb name suffix then true
  else match name with
       | EmptyString => false
       | String _ rest => ends_with suffix rest
       end.
Proof. destruct name; reflexivity. Qed.

Lemma ends_with_app p suffix : ends_with suffix (p +:+ suffix) = true.
Proof.
  induction p as [|a p IH].
  - rewrite ends_with_unfold. simpl. by rewrite String.eqb_refl.
  - change (ends_with suffix (String a p +:+ suffix))
      with (if String.eqb (String a (p +:+ suffix)) suffix then true
            else ends_with suffix (p +:+ suffix)).
    rewrite IH. by destruct (String.eqb _ _).
Qed.

Lemma fnmatch_js_stem name : fnmatch "*.js" (stem name +:+ ".js") = true.
Proof. apply ends_with_app. Qed.

Lemma dirs_distinct : EXTRACTED_JS_DIR ≠ JS_FILES_JSON_DIR.
Proof. discriminate. Qed.

Lemma rfind_app_nodot c p s :
  rfind c s = None →
  rfind c (p +:+ String c s) = Some (String.length p).
Proof.
  intros Hs. induction p as [|a p IH].
  - simpl. by rewrite Hs, Ascii.eqb_refl.
  - change (String a p +:+ String c s) with (String a (p +:+ String c s)).
    simpl. by rewrite IH.
Qed.

Lemma substring_prefix p s : substring 0 (String.length p) (p +:+ s) = p.
Proof.
  induction p as [|a p IH].
  - by destruct s.
  - change (String a p +:+ s) with (String a (p +:+ s)). simpl. by rewrite IH.
Qed.

Lemma length_append p s :
  String.length (p +:+ s) = (String.length p + String.length s)%nat.
Proof.
  induction p as [|a p IH]; [done|].
  change (String a p +:+ s) with (String a (p +:+ s)). simpl. by rewrite IH.
Qed.

Lemma ends_with_split suffix name :
  ends_with suffix name = true → ∃ p, name = p +:+ suffix.
Proof.
  induction name as [|a name IH].
  - change (ends_with suffix "")
      with (if String.eqb "" suffix then true else false).
    destruct (String.eqb "" suffix) eqn:He; [|done]. intros _.
    apply String.eqb_eq in He as <-. exists "". reflexivity.
  - change (ends_with suffix (String a name))
      with (if String.eqb (String a name) suffix then true
            else ends_with suffix name).
    destruct (String.eqb (String a name) suffix) eqn:He.
    + intros _. apply String.eqb_eq in He as <-. exists "". reflexivity.
    + intros [p ->]%IH. exists (String a p). reflexivity.
Qed.

Lemma stem_json p : p ≠ "" → stem (p +:+ ".json") = p.
Proof.
  intros Hp. unfold stem.
  rewrite (rfind_app_nodot "." p "json") by reflexivity.
  rewrite length_append. simpl String.length.
  destruct p as [|a p]; [done|]. simpl String.length.
  replace (0 <? S (String.length p))%nat with true
    by (symmetry; apply Nat.ltb_lt; lia).
  replace (S (String.length p) <? S (String.length p) + 5 - 1)%nat with true
    by (symmetry; apply Nat.ltb_lt; lia).
  simpl andb. cbv iota.
  apply (substring_prefix (String a p) ".json").
Qed.

(** [stem] cuts a name short, or leaves it as it is. *)
Lemma substring_is_prefix s : ∀ i, ∃ r, s = substring 0 i s +:+ r.
Proof.
  induction s as [|a s IH]; intros [|i]; simpl.
  - by exists "".
  - by exists "".
  - by exists (String a s).
  - destruct (IH i) as [r Hr]. exists r.
    change (String a (substring 0 i s) +:+ r)
      with (String a (substring 0 i s +:+ r)).
    by rewrite <- Hr.
Qed.

Lemma stem_is_prefix name : ∃ r, name = stem name +:+ r.
Proof.
  assert (∃ r, name = name +:+ r) as Hsame.
  { exists "". induction name as [|a name IH]; [done|].
    change (String a name +:+ "") with (String a (name +:+ "")).
    by rewrite <- IH. }
  unfold stem. destruct (rfind "." name) as [i|]; [|done].
  destruct (_ && _); [apply substring_is_prefix | done].
Qed.

(** ** Text that can be encoded *)

Lemma encodable_unfold e a b rest :
  encodable e (String a (String b rest)) =
  negb (refused e a b) && encodable e (String b rest).
Proof. reflexivity. Qed.

(** The beginning of a text that can be encoded can be encoded. *)
Lemma encodable_prefix e p : ∀ s,
  encodable e (p +:+ s) = true → encodable e p = true.
Proof.
  induction p as [|a p IH]; intros s H; [done|].
  destruct p as [|b p]; [done|].
  change (String a (String b p) +:+ s)
    with (String a (String b p +:+ s)) in H.
  change (String b p +:+ s) with (String b (p +:+ s)) in H.
  rewrite encodable_unfold in H. rewrite encodable_unfold.
  apply andb_true_iff in H as [H1 H2]. rewrite H1. simpl.
  by apply (IH s).
Qed.

(** A text followed by one that begins with an ASCII character: no lone
    surrogate can arise where they meet. *)
Lemma encodable_app_low e p c s :
  (nat_of_ascii c < 160)%nat →
  encodable e (p +:+ String c s) = encodable e p && encodable e (String c s).
Proof.
  intros Hc. induction p as [|a p IH]; [done|].
  destruct p as [|b p].
  - change (String a "" +:+ String c s) with (String a (String c s)).
    rewrite encodable_unfold.
    assert (refused e a c = false) as ->; [|done].
    unfold refused, starts_surrogate.
    apply andb_false_intro1, andb_false_intro2. apply Nat.leb_gt. lia.
  - change (String a (String b p) +:+ String c s)
      with (String a (String b (p +:+ String c s))).
    rewrite (encodable_unfold e a b (p +:+ String c s)).
    change (String b (p +:+ String c s)) with (String b p +:+ String c s).
    by rewrite IH, (encodable_unfold e a b p), andb_assoc.
Qed.

(** What a file can hold the console can show. *)
Lemma encodable_strict e s : encodable false s = true → encodable e s = true.
Proof.
  induction s as [|a s IH]; [done|]. destruct s as [|b s]; [done|].
  rewrite !encodable_unfold. intros [H1 H2]%andb_true_iff.
  rewrite (IH H2), andb_true_r. unfold refused in *.
  apply negb_true_iff in H1. rewrite andb_true_r in H1. by rewrite H1.
Qed.

Lemma utf8_encodable_console w s :
  utf8_encodable s = true → console_encodable w s = true.
Proof. apply encodable_strict. Qed.

(** The name of the script can be printed when the name of the record
    can; for a name that matches [*.json] the converse holds too. *)
Lemma encodable_script_name w name :
  console_encodable w name = true →
  console_encodable w (stem name +:+ ".js") = true.
Proof.
  unfold console_encodable.
  intros Hname. destruct (stem_is_prefix name) as [r Hr].
  rewrite encodable_app_low by (vm_compute; lia).
  apply andb_true_iff. split; [|reflexivity].
  apply (encodable_prefix _ _ r). by rewrite <- Hr.
Qed.

Lemma unencodable_script_name w name :
  fnmatch "*.json" name = true → console_encodable w name = false →
  console_encodable w (stem name +:+ ".js") = false.
Proof.
  unfold console_encodable.
  intros [p ->]%ends_with_split Hname.
  destruct p as [|a p]; [by vm_compute in Hname|].
  rewrite stem_json by done.
  rewrite encodable_app_low in Hname by (vm_compute; lia).
  rewrite encodable_app_low by (vm_compute; lia).
  apply andb_false_iff in Hname as [-> | Hjson]; [done|].
  by vm_compute in Hjson.
Qed.

(** ** The extraction *)

Lemma src_dir_with_out st out evs :
  dirs (fs (with_out st out evs)) !! JS_FILES_JSON_DIR
  = dirs (fs st) !! JS_FILES_JSON_DIR.
Proof. simpl. apply lookup_insert_ne, dirs_distinct. Qed.

Lemma out_dir_with_out st out evs :
  dirs (fs (with_out st out evs)) !! EXTRACTED_JS_DIR = Some out.
Proof. simpl. apply lookup_insert_eq. Qed.

Lemma with_out_with_out st out evs out' evs' :
  with_out (with_out st out evs) out' evs' = with_out st out' (evs ++ evs').
Proof.
  unfold with_out, set_dir. simpl. by rewrite insert_insert_eq, app_assoc.
Qed.

Lemma with_out_id st out :
  dirs (fs st) !! EXTRACTED_JS_DIR = Some out → with_out st out [] = st.
Proof.
  intros H. destruct st as [[d f] t]. unfold with_out, set_dir. simpl in *.
  by rewrite insert_id, app_nil_r.
Qed.

Lemma out_entries_with_out st out evs : out_entries (with_out st out evs) = out.
Proof. unfold out_entries. by rewrite out_dir_with_out. Qed.

Lemma usable_Some content c :
  usable content = Some c ↔ content = JStr c ∧ c ≠ "".
Proof.
  unfold usable. destruct content as [| | | | s | |]; simpl;
    try (rewrite ?andb_false_r; split; [discriminate | intros [? _]; discriminate]).
  destruct s as [|a s]; simpl.
  - split; [discriminate | intros [[= <-] ?]; done].
  - split; [intros [= <-]; done | intros [[= <-] _]; done].
Qed.

Lemma record_content_Some w source c :
  record_content w source = Some c ↔
  ∃ m, json_load w source = Some (JObj m) ∧ m !! "content" = Some (JStr c) ∧
       c ≠ "".
Proof.
  unfold record_content. split.
  - destruct (json_load w source) as [[| | | | | |m]|]; try done.
    destruct (m !! "content") as [[| | | |[|a s]| |]|] eqn:Hc; try done.
    intros [= <-]. by exists m.
  - intros (m & -> & -> & Hne). by destruct c.
Qed.

Lemma record_content_None w source :
  record_content w source = None ↔ lacks_content w source.
Proof.
  split.
  - unfold record_content. intros H.
    destruct (json_load w source) as [v|] eqn:Hl; [|by apply not_json].
    destruct v as [| | | | | |m];
      try (by eapply not_an_object; [done | intros ?; discriminate]).
    destruct (m !! "content") as [v|] eqn:Hc;
      [|by eapply content_absent].
    destruct v as [| | | |[|a s]| |]; try done;
      try (by eapply content_not_a_string; [done | done | intros ?; discriminate]).
    by eapply content_empty.
  - destruct (record_content w source) as [c|] eqn:Hc; [|done].
    apply record_content_Some in Hc as (m & Hl & Hc & Hne).
    intros [Hn | v Hv Hno | m' Hm' Ha | m' Hm' He | m' v Hm' Hv Hns].
    + congruence.
    + rewrite Hl in Hv. injection Hv as <-. by destruct (Hno m).
    + rewrite Hl in Hm'. injection Hm' as <-. congruence.
    + rewrite Hl in Hm'. injection Hm' as <-. congruence.
    + rewrite Hl in Hm'. injection Hm' as <-.
      rewrite Hc in Hv. injection Hv as <-. by destruct (Hns c).
Qed.

(** The [try] block of the loop body, before its handler: what it does
    to the counters and to the files, and how it ends. *)
Lemma extract_body w name n f st src out :
  dirs (fs st) !! JS_FILES_JSON_DIR = Some src →
  dirs (fs st) !! EXTRACTED_JS_DIR = Some out →
  let js := stem name +:+ ".js" in
  extract_one w name (n, f) st =
    match src !! name with
    | Some source =>
        match record_content w source with
        | Some c =>
            if utf8_encodable c then
              if console_encodable w js then
                ((Ok tt, (S n, f)),
                 with_out st (<[js := text_mode w c]> out)
                   [EvWrite EXTRACTED_JS_DIR js (text_mode w c)])
              else
                ((if console_encodable w name then Ok tt
                  else Raise UnicodeEncodeError, (S n, S f)),
                 with_out st (<[js := text_mode w c]> out)
                   [EvWrite EXTRACTED_JS_DIR js (text_mode w c)])
            else
              ((if console_encodable w name then Ok tt
                else Raise UnicodeEncodeError, (n, S f)),
               with_out st (<[js := ""]> out) [EvWrite EXTRACTED_JS_DIR js ""])
        | None =>
            match json_load w source with
            | Some (JObj _) =>
                if console_encodable w name && report_printable w source
                then ((Ok tt, (n, S f)), st)
                else ((if console_encodable w name then Ok tt
                       else Raise UnicodeEncodeError, (n, S (S f))), st)
            | _ =>
                ((if console_encodable w name then Ok tt
                  else Raise UnicodeEncodeError, (n, S f)), st)
            end
        end
    | None =>
        ((if console_encodable w name then Ok tt
          else Raise UnicodeEncodeError, (n, S f)), st)
    end.
Proof.
  intros Hsrc Hout js.
  assert (∀ (c : counters) s,
    (count_failed ;;; lift (print_fmt w [JStr name]))%local c s =
    ((if console_encodable w name then Ok tt else Raise UnicodeEncodeError,
      (fst c, S (snd c))), s)) as Hhandler.
  { intros c s. unfold lbind, count_failed, assign, lift, print_fmt.
    cbn [forallb printable]. rewrite andb_true_r.
    by destruct (console_encodable w name). }
  unfold extract_one, ltry_except.
  unfold lbind at 1. unfold lift at 1. unfold read_text. rewrite Hsrc.
  destruct (src !! name) as [source|];
    [|cbn [is_Exception]; cbv beta iota; by rewrite Hhandler].
  unfold lbind at 1. unfold lift at 1. unfold loads, record_content.
  destruct (json_load w source) as [data|] eqn:Hload;
    [|unfold raise; cbn [is_Exception]; cbv beta iota; by rewrite Hhandler].
  unfold ret at 1.
  destruct data as [| | | | | |m];
    try (unfold lbind at 1; unfold lift at 1; cbn [dict_get]; unfold raise;
         cbn [is_Exception]; cbv beta iota; by rewrite Hhandler).
  unfold lbind at 1. unfold lift at 1. cbn [dict_get]. unfold ret at 1.
  unfold lbind at 1. unfold lift at 1. unfold ret at 1.
  assert (usable (match m !! "content" with Some v => v | None => JNull end) =
          match m !! "content" with
          | Some (JStr (String a rest)) => Some (String a rest)
          | _ => None
          end) as ->.
  { destruct (m !! "content") as [[| | | |[|a s]| |]|]; try reflexivity;
      unfold usable; cbn [isinstance_str]; by rewrite andb_false_r. }
  destruct (match m !! "content" with
            | Some (JStr (String a rest)) => Some (String a rest)
            | _ => None
            end) as [c|].
  - cbv zeta. fold js.
    unfold lbind at 1. unfold lift at 1. unfold write_text. rewrite Hout.
    destruct (utf8_encodable c).
    + unfold lbind at 1. unfold count_extracted, assign. cbn [fst snd].
      unfold lift, print_fmt. cbn [forallb printable]. rewrite andb_true_r.
      destruct (console_encodable w js); [done|].
      unfold raise. cbn [is_Exception]. cbv beta iota. by rewrite Hhandler.
    + cbn [is_Exception]. cbv beta iota. by rewrite Hhandler.
  - unfold lbind at 1. unfold lift at 1. unfold ret at 1.
    unfold lbind at 1. unfold lift at 1. unfold ret at 1.
    unfold lbind at 1. unfold count_failed at 1, assign. cbn [fst snd].
    unfold lift, print_fmt, report_printable. rewrite Hload.
    cbn [forallb printable]. rewrite andb_true_r.
    change (match m !! "status" with Some v => v | None => JStr "unknown" end)
      with (default (JStr "unknown") (m !! "status")).
    change (match m !! "error" with Some v => v | None => JStr "No content" end)
      with (default (JStr "No content") (m !! "error")).
    destruct (console_encodable w name) eqn:Hname; cbn [andb].
    + destruct (printable w (default (JStr "unknown") (m !! "status")) &&
                printable w (default (JStr "No content") (m !! "error")));
        [done|].
      reflexivity.
    + reflexivity.
Qed.

(** A record whose name can be printed: the loop body returns. *)
Lemma extract_one_printable w name n f st src out :
  dirs (fs st) !! JS_FILES_JSON_DIR = Some src →
  dirs (fs st) !! EXTRACTED_JS_DIR = Some out →
  console_encodable w name = true →
  extract_one w name (n, f) st =
    ((Ok tt, (n + (if extractable w src name then 1 else 0),
               f + failures w src name)%nat),
     match extracted_script w src name with
     | Some p => with_out st (put_script out p) [write_event p]
     | None => st
     end).
Proof.
  intros Hsrc Hout Hname.
  rewrite (extract_body w name n f st src out Hsrc Hout). cbv zeta.
  rewrite (encodable_script_name w name Hname), Hname.
  unfold extractable, failures, extracted_script, written_text.
  destruct (src !! name) as [source|]; [|repeat f_equal; lia].
  destruct (record_content w source) as [c|] eqn:Hc.
  - destruct (utf8_encodable c); repeat f_equal; lia.
  - cbn [andb]. unfold report_printable.
    destruct (json_load w source) as [[| | | | | |m]|];
      try (repeat f_equal; lia).
    destruct (_ && _); repeat f_equal; lia.
Qed.

(** A record whose name cannot be printed: the handler raises, after
    the script of the record was written. *)
Lemma extract_one_unprintable w name n f st src out :
  dirs (fs st) !! JS_FILES_JSON_DIR = Some src →
  dirs (fs st) !! EXTRACTED_JS_DIR = Some out →
  fnmatch "*.json" name = true →
  console_encodable w name = false →
  ∃ c', extract_one w name (n, f) st =
    ((Raise UnicodeEncodeError, c'),
     match extracted_script w src name with
     | Some p => with_out st (put_script out p) [write_event p]
     | None => st
     end).
Proof.
  intros Hsrc Hout Hjson Hname.
  rewrite (extract_body w name n f st src out Hsrc Hout). cbv zeta.
  rewrite (unencodable_script_name w name Hjson Hname), Hname.
  unfold extracted_script, written_text.
  destruct (src !! name) as [source|]; [|by eexists].
  destruct (record_content w source) as [c|] eqn:Hc.
  - destruct (utf8_encodable c); by eexists.
  - cbn [andb]. destruct (json_load w source) as [[| | | | | |m]|];
      by eexists.
Qed.

Lemma for_each_cons {A S : Type} (x : A) xs (body : A -> S -> M S) acc st :
  for_each (x :: xs) body acc st =
    match body x acc st with
    | (Ok acc', st') => for_each xs body acc' st'
    | (Raise e, st') => (Raise e, st')
    end.
Proof. reflexivity. Qed.

Lemma lfor_each_cons {V A : Type} (x : A) xs (body : A -> L V unit) v st :
  lfor_each (x :: xs) body v st =
    match body x v st with
    | ((Ok _, v'), st') => lfor_each xs body v' st'
    | ((Raise e, v'), st') => ((Raise e, v'), st')
    end.
Proof.
  cbn [lfor_each]. unfold lbind.
  by destruct (body x v st) as [[[[]|e] v'] st'].
Qed.

Lemma scripts_of_cons w src name names :
  scripts_of w src (name :: names) =
  match extracted_script w src name with
  | Some p => p :: scripts_of w src names
  | None => scripts_of w src names
  end.
Proof. reflexivity. Qed.

(** The loop: it handles the records up to the first whose name cannot
    be printed, and raises there; when there is none it returns, with
    the counters that the records add up to. *)
Lemma extract_loop_spec w names : ∀ n f st src out,
  dirs (fs st) !! JS_FILES_JSON_DIR = Some src →
  dirs (fs st) !! EXTRACTED_JS_DIR = Some out →
  Forall (admissible w) names →
  ∃ c', extract_loop w names (n, f) st =
    ((if forallb (console_encodable w) names then Ok tt
      else Raise UnicodeEncodeError, c'),
     with_out st (foldl put_script out (scripts_of w src (handled w names)))
       (write_event <$> scripts_of w src (handled w names))) ∧
    (forallb (console_encodable w) names = true →
     c' = (n + length (List.filter (extractable w src) names),
           f + sum_list (failures w src <$> names))%nat).
Proof.
  unfold extract_loop.
  induction names as [|name names IH]; intros n f st src out Hsrc Hout Hadm.
  - exists (n, f). simpl. unfold lret. rewrite with_out_id by done.
    split; [done|]. intros _. f_equal; lia.
  - apply Forall_cons in Hadm as [Hname Hadm].
    rewrite lfor_each_cons. cbn [forallb handled].
    destruct (console_encodable w name) eqn:Henc; cbn [andb].
    + rewrite (extract_one_printable w name n f st src out Hsrc Hout Henc).
      rewrite scripts_of_cons. cbn [List.filter].
      destruct (extracted_script w src name) as [p|] eqn:Hp.
      * destruct (IH (n + (if extractable w src name then 1 else 0))%nat
                    (f + failures w src name)%nat
                    (with_out st (put_script out p) [write_event p])
                    src (put_script out p))
          as (c' & -> & Hc'); [by rewrite src_dir_with_out
                              |by rewrite out_dir_with_out|done|].
        exists c'. rewrite with_out_with_out. split; [done|].
        intros Hall. rewrite (Hc' Hall). rewrite fmap_cons. cbn [sum_list].
        destruct (extractable w src name); cbn [length]; unfold id;
          f_equal; lia.
      * destruct (IH (n + (if extractable w src name then 1 else 0))%nat
                    (f + failures w src name)%nat st src out)
          as (c' & -> & Hc'); [done|done|done|].
        exists c'. split; [done|].
        intros Hall. rewrite (Hc' Hall). rewrite fmap_cons. cbn [sum_list].
        destruct (extractable w src name); cbn [length]; unfold id;
          f_equal; lia.
    + destruct Hname as [Hname|Hjson]; [congruence|].
      destruct (extract_one_unprintable w name n f st src out Hsrc Hout
                  Hjson Henc) as [c' ->].
      exists c'. split; [|done].
      rewrite scripts_of_cons. unfold scripts_of at 1 3. cbn [omap].
      destruct (extracted_script w src name) as [p|]; cbn [fmap list_fmap foldl].
      * done.
      * by rewrite with_out_id.
Qed.

Lemma unlink_all_spec names : ∀ st out,
  dirs (fs st) !! EXTRACTED_JS_DIR = Some out →
  NoDup names →
  (∀ name, name ∈ names → is_Some (out !! name)) →
  for_each names (fun f _ => unlink EXTRACTED_JS_DIR f) tt st =
    (Ok tt, with_out st (foldl remove_file out names)
              (EvUnlink EXTRACTED_JS_DIR <$> names)).
Proof.
  induction names as [|name names IH]; intros st out Hout Hnd Hin.
  - simpl. unfold ret. by rewrite with_out_id.
  - apply NoDup_cons in Hnd as [Hfresh Hnd].
    rewrite for_each_cons. unfold unlink at 1. rewrite Hout.
    destruct (Hin name) as [c Hc]; [left|]. rewrite Hc.
    change {| fs := set_dir EXTRACTED_JS_DIR (delete name out) (fs st);
              trace := trace st ++ [EvUnlink EXTRACTED_JS_DIR name] |}
      with (with_out st (remove_file out name) [EvUnlink EXTRACTED_JS_DIR name]).
    rewrite (IH _ (remove_file out name)).
    + by rewrite with_out_with_out.
    + by rewrite out_dir_with_out.
    + done.
    + intros x Hx. unfold remove_file. rewrite lookup_delete_ne.
      * apply Hin. by right.
      * intros ->. done.
Qed.

Lemma lookup_remove_files names : ∀ (out : gmap string string) name,
  foldl remove_file out names !! name =
    if decide (name ∈ names) then None else out !! name.
Proof.
  induction names as [|x names IH]; intros out name; simpl.
  - done.
  - rewrite IH. unfold remove_file.
    destruct (decide (name ∈ names)) as [Hin|Hin].
    + rewrite decide_True; [done | by right].
    + destruct (decide (x = name)) as [->|Hne].
      * rewrite lookup_delete_eq. rewrite decide_True; [done | by left].
      * rewrite lookup_delete_ne by done.
        rewrite decide_False; [done|]. intros [?|?]%elem_of_cons; by subst.
Qed.

Lemma elem_of_matching pattern (entries : gmap string string) name :
  name ∈ matching pattern entries ↔
  is_Some (entries !! name) ∧ fnmatch pattern name = true.
Proof.
  unfold matching. rewrite list_elem_of_In, filter_In, <- list_elem_of_In.
  rewrite list_elem_of_fmap. split.
  - intros [[[k v] [-> Hkv]] Hm]. apply elem_of_map_to_list in Hkv. eauto.
  - intros [[v Hv] Hm]. split; [|done]. exists (name, v). split; [done|].
    by apply elem_of_map_to_list.
Qed.

Lemma NoDup_matching pattern (entries : gmap string string) :
  NoDup (matching pattern entries).
Proof.
  unfold matching. apply NoDup_ListNoDup, List.NoDup_filter, NoDup_ListNoDup.
  apply NoDup_fst_map_to_list.
Qed.

Lemma matching_empty pattern : matching pattern ∅ = [].
Proof. unfold matching. by rewrite map_to_list_empty. Qed.

Lemma admissible_records w st : Forall (admissible w) (records st).
Proof.
  apply Forall_forall. intros name [_ Hjson]%elem_of_matching. by right.
Qed.

(** The directories [mkdir] makes. *)
Lemma lookup_make_dir f d d' :
  dirs (make_dir f d) !! d' =
  if decide (d = d') then Some (default ∅ (dirs f !! d)) else dirs f !! d'.
Proof.
  unfold make_dir. destruct (decide (d = d')) as [<-|Hne].
  - destruct (dirs f !! d) as [entries|] eqn:Hd; [by rewrite Hd|].
    simpl. apply lookup_insert_eq.
  - destruct (dirs f !! d) as [entries|] eqn:Hd; [done|].
    simpl. by apply lookup_insert_ne.
Qed.

Lemma files_make_dir f d : files (make_dir f d) = files f.
Proof. unfold make_dir. by destruct (dirs f !! d). Qed.

Lemma to_make_extracted :
  to_make EXTRACTED_JS_DIR = [NOIZZ_DIR; MAPPING_OUTPUT_DIR; EXTRACTED_JS_DIR].
Proof. reflexivity. Qed.

Lemma prepared_dirs st d :
  dirs (fs (prepared st)) !! d =
  if decide (d ∈ [NOIZZ_DIR; MAPPING_OUTPUT_DIR; EXTRACTED_JS_DIR])
  then Some (default ∅ (dirs (fs st) !! d))
  else dirs (fs st) !! d.
Proof.
  unfold prepared. rewrite to_make_extracted. cbn [fs foldl].
  rewrite lookup_make_dir.
  destruct (decide (EXTRACTED_JS_DIR = d)) as [<-|H3].
  { rewrite decide_True by (do 2 right; left).
    rewrite !lookup_make_dir.
    rewrite (decide_False (P := MAPPING_OUTPUT_DIR = EXTRACTED_JS_DIR))
      by discriminate.
    by rewrite (decide_False (P := NOIZZ_DIR = EXTRACTED_JS_DIR))
      by discriminate. }
  rewrite lookup_make_dir.
  destruct (decide (MAPPING_OUTPUT_DIR = d)) as [<-|H2].
  { rewrite decide_True by (right; left).
    rewrite !lookup_make_dir.
    by rewrite (decide_False (P := NOIZZ_DIR = MAPPING_OUTPUT_DIR))
      by discriminate. }
  rewrite lookup_make_dir.
  destruct (decide (NOIZZ_DIR = d)) as [<-|H1].
  { by rewrite decide_True by left. }
  rewrite decide_False; [done|].
  intros Hin. repeat (apply elem_of_cons in Hin as [Hin|Hin]; [congruence|]).
  by apply elem_of_nil in Hin.
Qed.

Lemma prepared_files st : files (fs (prepared st)) = files (fs st).
Proof.
  unfold prepared. rewrite to_make_extracted. cbn [fs foldl].
  by rewrite !files_make_dir.
Qed.

Lemma prepared_out st :
  dirs (fs (prepared st)) !! EXTRACTED_JS_DIR = Some (out_entries st).
Proof. rewrite prepared_dirs. by rewrite decide_True by (do 2 right; left). Qed.

Lemma prepared_src st :
  dirs (fs (prepared st)) !! JS_FILES_JSON_DIR
  = dirs (fs st) !! JS_FILES_JSON_DIR.
Proof.
  rewrite prepared_dirs. rewrite decide_False; [done|].
  intros Hin. repeat (apply elem_of_cons in Hin as [Hin|Hin]; [discriminate|]).
  by apply elem_of_nil in Hin.
Qed.

Lemma src_entries_prepared st : src_entries (prepared st) = src_entries st.
Proof. unfold src_entries. by rewrite prepared_src. Qed.

(** What one run of the extraction does.  It makes the extraction
    directory, removes the [*.js] files from it and handles the records;
    it returns the number of records that count as extracted, unless the
    name of a record cannot be printed. *)
Theorem extract_js_from_json_files_spec w st :
  extract_js_from_json_files w st =
    (if names_printable w st
     then Ok (length (List.filter (extractable w (src_entries st))
                        (records st)))
     else Raise UnicodeEncodeError,
     with_out (prepared st)
       (foldl put_script (cleared (out_entries st)) (scripts w st))
       ((EvUnlink EXTRACTED_JS_DIR <$> matching "*.js" (out_entries st)) ++
        (write_event <$> scripts w st))).
Proof.
  unfold extract_js_from_json_files.
  unfold bind at 1. unfold mkdir at 1. fold (prepared st).
  unfold bind at 1. unfold glob at 1. rewrite prepared_out.
  fold (matching "*.js" (out_entries st)).
  unfold bind at 1.
  rewrite (unlink_all_spec _ (prepared st) (out_entries st) (prepared_out st)).
  2: apply NoDup_matching.
  2: { intros name Hin. by apply elem_of_matching in Hin as [? _]. }
  fold (cleared (out_entries st)).
  set (st2 := with_out (prepared st) _ _).
  assert (dirs (fs st2) !! JS_FILES_JSON_DIR = dirs (fs st) !! JS_FILES_JSON_DIR)
    as Hsrc2 by (unfold st2; by rewrite src_dir_with_out, prepared_src).
  assert (dirs (fs st2) !! EXTRACTED_JS_DIR = Some (cleared (out_entries st)))
    as Hout2 by apply out_dir_with_out.
  unfold bind at 1. unfold glob at 1. rewrite Hsrc2.
  unfold names_printable, scripts, records, src_entries.
  destruct (dirs (fs st) !! JS_FILES_JSON_DIR) as [src|] eqn:Hsrc; simpl default.
  - fold (matching "*.json" src). unfold bind at 1. unfold with_locals.
    destruct (extract_loop_spec w (matching "*.json" src) 0 0 st2 src
                (cleared (out_entries st))) as (c' & -> & Hc').
    { by rewrite Hsrc2. }
    { done. }
    { apply Forall_forall. intros name [_ Hjson]%elem_of_matching. by right. }
    subst st2. rewrite with_out_with_out.
    destruct (forallb (console_encodable w) (matching "*.json" src)); [|done].
    rewrite (Hc' eq_refl). unfold ret. by cbn [fst].
  - rewrite matching_empty. subst st2. unfold bind, ret, with_locals. simpl.
    by rewrite app_nil_r.
Qed.

Lemma lookup_put_scripts_notin ps : ∀ (out : gmap string string) name,
  name ∉ ps.*1 → foldl put_script out ps !! name = out !! name.
Proof.
  induction ps as [|p ps IH]; intros out name Hnotin; simpl; [done|].
  rewrite fmap_cons, not_elem_of_cons in Hnotin. destruct Hnotin as [Hne Hnotin].
  rewrite IH by done. unfold put_script. by rewrite lookup_insert_ne.
Qed.

Lemma lookup_put_scripts_in ps : ∀ (out : gmap string string) name,
  name ∈ ps.*1 → ∃ c, (name, c) ∈ ps ∧ foldl put_script out ps !! name = Some c.
Proof.
  induction ps as [|[k v] ps IH]; intros out name Hin; simpl in *.
  - by apply elem_of_nil in Hin.
  - destruct (decide (name ∈ ps.*1)) as [Hps|Hps].
    + destruct (IH (put_script out (k, v)) name Hps) as (c & Hc & Hl).
      exists c. split; [by right | done].
    + apply elem_of_cons in Hin as [->|Hin]; [|done].
      exists v. split; [by left|].
      rewrite lookup_put_scripts_notin by done.
      unfold put_script. simpl. apply lookup_insert_eq.
Qed.

Lemma lookup_put_scripts_ext ps : ∀ (a b : gmap string string) name,
  a !! name = b !! name →
  foldl put_script a ps !! name = foldl put_script b ps !! name.
Proof.
  induction ps as [|p ps IH]; intros a b name Hab; simpl; [done|].
  apply IH. unfold put_script.
  destruct (decide (p.1 = name)) as [<-|Hne].
  - by rewrite !lookup_insert_eq.
  - by rewrite !lookup_insert_ne.
Qed.

Lemma lookup_cleared (out : gmap string string) name :
  cleared out !! name = if fnmatch "*.js" name then None else out !! name.
Proof.
  unfold cleared. rewrite lookup_remove_files.
  destruct (fnmatch "*.js" name) eqn:Hm.
  - destruct (out !! name) as [c|] eqn:Hc.
    + rewrite decide_True; [done|]. apply elem_of_matching. eauto.
    + by destruct (decide _).
  - rewrite decide_False; [done|].
    intros [_ Hm']%elem_of_matching. congruence.
Qed.

Lemma elem_of_scripts_of w src names p :
  p ∈ scripts_of w src names ↔
  ∃ name source c, name ∈ names ∧ src !! name = Some source ∧
    record_content w source = Some c ∧
    p = (stem name +:+ ".js", written_text w c).
Proof.
  unfold scripts_of. rewrite list_elem_of_omap. unfold extracted_script. split.
  - intros (name & Hin & Hp).
    destruct (src !! name) as [source|] eqn:Hs; [|done].
    destruct (record_content w source) as [c|] eqn:Hc; [|done].
    injection Hp as <-. by exists name, source, c.
  - intros (name & source & c & Hin & Hs & Hc & ->). exists name.
    by rewrite Hs, Hc.
Qed.

Lemma scripts_of_js w src names p :
  p ∈ scripts_of w src names → fnmatch "*.js" p.1 = true.
Proof.
  intros (name & ? & ? & _ & _ & _ & ->)%elem_of_scripts_of.
  apply fnmatch_js_stem.
Qed.


(** The records the loop gets to. *)
Lemma handled_all w names :
  forallb (console_encodable w) names = true → handled w names = names.
Proof.
  induction names as [|name names IH]; [done|]. cbn [forallb handled].
  intros [-> Hall]%andb_true_iff. by rewrite IH.
Qed.


Lemma scripts_printable w st :
  names_printable w st = true →
  scripts w st = scripts_of w (src_entries st) (records st).
Proof. intros Hall. unfold scripts. by rewrite handled_all. Qed.


Lemma extract_out_lookup w st name :
  out_entries (snd (extract_js_from_json_files w st)) !! name =
  foldl put_script (cleared (out_entries st)) (scripts w st) !! name.
Proof.
  rewrite extract_js_from_json_files_spec. simpl snd.
  by rewrite out_entries_with_out.
Qed.





Lemma admissible_printable w names :
  forallb (console_encodable w) names = true → Forall (admissible w) names.
Proof.
  rewrite forallb_forall. intros Hall. apply Forall_forall.
  intros name Hin. left. apply Hall. by apply list_elem_of_In.
Qed.



(** C10. A file of the extraction directory whose name does not match
    [*.js] is there after the extraction as it was before it, with the
    same contents. *)
Theorem extract_keeps_other_files w st name :
  fnmatch "*.js" name = false →
  out_entries (snd (extract_js_from_json_files w st)) !! name =
  out_entries st !! name.
Proof.
  intros Hjs. rewrite extract_out_lookup.
  rewrite lookup_put_scripts_notin.
  - by rewrite lookup_cleared, Hjs.
  - intros ([k c] & -> & Hin)%list_elem_of_fmap.
    apply scripts_of_js in Hin. simpl in *. congruence.
Qed.

Lemma src_entries_with_out st out evs :
  src_entries (with_out st out evs) = src_entries st.
Proof. unfold src_entries. by rewrite src_dir_with_out. Qed.

(** X22. A second run on the same source directory repeats the first:
    the same count, and the extraction directory as the first run left
    it. *)
Lemma extract_twice w st :
  let first := extract_js_from_json_files w st in
  let second := extract_js_from_json_files w (snd first) in
  fst second = fst first ∧
  out_entries (snd second) = out_entries (snd first).
Proof.
  cbv zeta. rewrite (extract_js_from_json_files_spec w st). cbn [fst snd].
  set (st1 := with_out (prepared st) _ _).
  assert (src_entries st1 = src_entries st) as Hsrc
    by (unfold st1; by rewrite src_entries_with_out, src_entries_prepared).
  assert (records st1 = records st) as Hrecords
    by (unfold records; by rewrite Hsrc).
  assert (scripts w st1 = scripts w st) as Hscripts
    by (unfold scripts; by rewrite Hsrc, Hrecords).
  rewrite (extract_js_from_json_files_spec w st1). cbn [fst snd].
  unfold names_printable. rewrite Hscripts, Hsrc, Hrecords. split; [done|].
  rewrite out_entries_with_out. subst st1. rewrite !out_entries_with_out.
  apply map_eq. intros name.
  apply lookup_put_scripts_ext. rewrite !lookup_cleared.
  destruct (fnmatch "*.js" name) eqn:Hjs; [done|].
  rewrite lookup_put_scripts_notin; [by rewrite lookup_cleared, Hjs|].
  intros Hin. apply list_elem_of_fmap in Hin as ([k c] & -> & Hin).
  apply scripts_of_js in Hin. simpl in *. congruence.
Qed.

(** ** The capture step *)

Create HintDb extends.

Lemma extends_ret {A} (a : A) : extends (ret a).
Proof. intros s. exists []. simpl. by rewrite app_nil_r. Qed.

Lemma extends_raise {A} e : extends (@raise A e).
Proof. intros s. exists []. simpl. by rewrite app_nil_r. Qed.

Lemma extends_bind {A B} (m : M A) (k : A → M B) :
  extends m → (∀ a, extends (k a)) → extends (bind m k).
Proof.
  intros Hm Hk s. unfold bind. destruct (Hm s) as [t Ht].
  destruct (m s) as [[a|e] s1]; simpl in *.
  - destruct (Hk a s1) as [t' Ht']. exists (t ++ t').
    by rewrite Ht', Ht, app_assoc.
  - by exists t.
Qed.

Lemma extends_try_except {A} (body : M A) catches handler :
  extends body → (∀ e, extends (handler e)) →
  extends (try_except body catches handler).
Proof.
  intros Hb Hh s. unfold try_except. destruct (Hb s) as [t Ht].
  destruct (body s) as [[a|e] s1]; simpl in *.
  - by exists t.
  - destruct (catches e); [|by exists t].
    destruct (Hh e s1) as [t' Ht']. exists (t ++ t').
    by rewrite Ht', Ht, app_assoc.
Qed.

Lemma extends_emit e : extends (emit e).
Proof. intros s. by exists [e]. Qed.

Lemma extends_read_file path : extends (read_file path).
Proof.
  intros s. exists []. unfold read_file.
  destruct (files (fs s) !! path); simpl; by rewrite app_nil_r.
Qed.

Lemma extends_loads w source : extends (loads w source).
Proof.
  unfold loads. destruct (json_load w source);
    [apply extends_ret | apply extends_raise].
Qed.

Lemma extends_dict_get data key default : extends (dict_get data key default).
Proof. destruct data; simpl; (apply extends_ret || apply extends_raise). Qed.

Lemma extends_dict_set data key v : extends (dict_set data key v).
Proof. destruct data; simpl; (apply extends_ret || apply extends_raise). Qed.

Lemma extends_len v : extends (len v).
Proof. destruct v; simpl; (apply extends_ret || apply extends_raise). Qed.

Lemma extends_print_fmt w values : extends (print_fmt w values).
Proof.
  unfold print_fmt. destruct (forallb (printable w) values);
    [apply extends_ret | apply extends_raise].
Qed.

Lemma extends_http_post_map w config : extends (http_post_map w config).
Proof.
  intros s. exists [EvPost "http://localhost:8000/map" config 600].
  unfold http_post_map. destruct (post_map w config (fs s)) as [[resp|] f]; done.
Qed.

#[local] Hint Resolve extends_ret extends_raise extends_emit extends_read_file
  extends_loads extends_dict_get extends_dict_set extends_len
  extends_print_fmt extends_http_post_map : extends.
#[local] Hint Extern 2 (extends (bind _ _)) =>
  apply extends_bind; [|intros ?] : extends.
#[local] Hint Extern 2 (extends (try_except _ _ _)) =>
  apply extends_try_except; [|intros ?] : extends.
#[local] Hint Extern 3 (extends (if ?b then _ else _)) => destruct b : extends.
#[local] Hint Extern 3 (extends (match ?x with _ => _ end)) =>
  destruct x : extends.

Lemma logged_logged st t t' : logged (logged st t) t' = logged st (t ++ t').
Proof. unfold logged. simpl. by rewrite app_assoc. Qed.

Lemma logged_nil st : logged st [] = st.
Proof. unfold logged. rewrite app_nil_r. by destruct st. Qed.

(** One turn of the polling loop. *)
Lemma wait_for_server_step w n i st :
  wait_for_server w (S n) i st =
    match health w i with
    | Some status =>
        if (status =? 200)%Z then (Ok true, logged st [EvGet health_url 2])
        else wait_for_server w n (S i)
               (logged st [EvGet health_url 2; EvSleep 1])
    | None =>
        wait_for_server w n (S i) (logged st [EvGet health_url 2; EvSleep 1])
    end.
Proof.
  simpl. unfold bind, try_except, http_get_health, bind, emit.
  destruct (health w i) as [status|]; simpl.
  - destruct (status =? 200)%Z; simpl; [done|].
    f_equal. unfold logged. simpl. by rewrite <- app_assoc.
  - f_equal. unfold logged. simpl. by rewrite <- app_assoc.
Qed.

(** The polling loop leaves the files alone, and answers [true] exactly
    when one of its attempts sees status 200. *)
Lemma wait_for_server_spec w n : ∀ i st,
  ∃ b t, wait_for_server w n i st = (Ok b, logged st t) ∧
         (b = true ↔ ∃ k, (k < n)%nat ∧ health w (i + k) = Some 200%Z).
Proof.
  induction n as [|n IH]; intros i st.
  - exists false, []. rewrite logged_nil. split; [done|].
    split; [done | intros (k & Hk & _); lia].
  - rewrite wait_for_server_step.
    assert (∀ b,
      (b = true ↔ ∃ k, (k < n)%nat ∧ health w (S i + k) = Some 200%Z) →
      health w i ≠ Some 200%Z →
      (b = true ↔ ∃ k, (k < S n)%nat ∧ health w (i + k) = Some 200%Z)) as Hshift.
    { intros b Hb Hi. rewrite Hb. split.
      - intros (k & Hk & Hk'). exists (S k). split; [lia|].
        by replace (i + S k)%nat with (S i + k)%nat by lia.
      - intros ([|k] & Hk & Hk').
        + by rewrite Nat.add_0_r in Hk'.
        + exists k. split; [lia|].
          by replace (S i + k)%nat with (i + S k)%nat by lia. }
    destruct (health w i) as [status|] eqn:Hh.
    + destruct (status =? 200)%Z eqn:Hs.
      * exists true, [EvGet health_url 2]. split; [done|]. split; [|done].
        intros _. exists 0%nat. split; [lia|].
        apply Z.eqb_eq in Hs as ->. by rewrite Nat.add_0_r.
      * destruct (IH (S i) (logged st [EvGet health_url 2; EvSleep 1]))
          as (b & t & Heq & Hb).
        exists b, ([EvGet health_url 2; EvSleep 1] ++ t).
        rewrite Heq, logged_logged. split; [done|]. apply Hshift; [done|].
        intros [= ->]. done.
    + destruct (IH (S i) (logged st [EvGet health_url 2; EvSleep 1]))
        as (b & t & Heq & Hb).
      exists b, ([EvGet health_url 2; EvSleep 1] ++ t).
      rewrite Heq, logged_logged. split; [done|]. by apply Hshift.
Qed.

(** When no attempt sees status 200 the loop makes all its attempts,
    each followed by its pause. *)
Lemma wait_for_server_never w n : ∀ i st,
  (∀ k, (k < n)%nat → health w (i + k) ≠ Some 200%Z) →
  wait_for_server w n i st = (Ok false, logged st (poll_events n)).
Proof.
  induction n as [|n IH]; intros i st Hnever.
  - by rewrite logged_nil.
  - rewrite wait_for_server_step.
    assert (∀ k, (k < n)%nat → health w (S i + k) ≠ Some 200%Z) as Hrest.
    { intros k Hk. replace (S i + k)%nat with (i + S k)%nat by lia.
      apply Hnever. lia. }
    pose proof (Hnever 0%nat ltac:(lia)) as H0. rewrite Nat.add_0_r in H0.
    destruct (health w i) as [status|] eqn:Hh.
    + destruct (status =? 200)%Z eqn:Hs.
      * apply Z.eqb_eq in Hs as ->. done.
      * by rewrite (IH (S i) _ Hrest), logged_logged.
    + by rewrite (IH (S i) _ Hrest), logged_logged.
Qed.

Lemma extends_request_mapping w config_file start_url :
  extends (request_mapping w config_file start_url).
Proof.
  unfold request_mapping.
  apply extends_bind; [auto with extends|intros source].
  apply extends_bind; [auto with extends|intros config].
  apply extends_bind.
  { destruct start_url as [[|a rest]|]; auto with extends. }
  intros config'.
  apply extends_bind; [auto with extends|intros shown].
  apply extends_bind; [auto with extends|intros _].
  apply extends_bind; [auto with extends|intros resp].
  destruct (status_code resp =? 200)%Z;
    repeat (apply extends_bind; [auto with extends|intros ?]);
    auto with extends.
Qed.

Lemma stop_server_spec w st :
  stop_server w st =
    (if wait_ok w then Ok tt else Raise TimeoutExpired,
     logged st [if win32 w then taskkill_event w else EvTerminate; EvWait 5]).
Proof.
  unfold stop_server, bind, emit, logged, taskkill_event.
  destruct (win32 w), (wait_ok w); simpl; by rewrite <- app_assoc.
Qed.

(** C4. Whatever the answers of the capture service, the files and the
    arguments, and whether [run_noizz2025] returns [True], returns
    [False] or raises, the trace it leaves has, after the start of the
    child process, an event that signals this process to terminate, and
    after that event at most the bounded wait. *)
Theorem run_noizz2025_stops_server w config_file start_url st :
  ∃ before kill after,
    trace (snd (run_noizz2025 w config_file start_url st)) =
      trace st ++ popen_event w :: before ++ kill :: after ∧
    stops_server w kill ∧
    (after = [] ∨ after = [EvWait 5]).
Proof.
  unfold run_noizz2025. unfold bind at 1. unfold emit at 1.
  fold (popen_event w). fold (logged st [popen_event w]).
  unfold bind at 1.
  destruct (wait_for_server_spec w 30 0 (logged st [popen_event w]))
    as (ready & polls & -> & _).
  rewrite logged_logged.
  destruct ready; cbn [negb]; cbv beta iota.
  - unfold try_finally.
    destruct (extends_try_except (request_mapping w config_file start_url)
                is_Exception (fun _ => ret false)
                (extends_request_mapping w config_file start_url)
                (fun _ => extends_ret false)
                (logged st ([popen_event w] ++ polls))) as [t Ht].
    destruct (try_except _ _ _ _) as [r s'].
    rewrite stop_server_spec. simpl in Ht.
    exists (polls ++ t), (if win32 w then taskkill_event w else EvTerminate),
      [EvWait 5].
    split; [|split].
    + destruct (wait_ok w); simpl; rewrite Ht; by rewrite <- !app_assoc.
    + unfold stops_server. destruct (win32 w); auto.
    + by right.
  - exists polls, EvTerminate, []. split; [|split].
    + unfold bind, emit, ret. simpl. by rewrite <- !app_assoc.
    + by left.
    + by left.
Qed.

Lemma run_noizz2025_never_ready w config_file start_url st :
  (∀ i, (i < 30)%nat → health w i ≠ Some 200%Z) →
  run_noizz2025 w config_file start_url st =
    (Ok false,
     logged st (popen_event w :: poll_events 30 ++ [EvTerminate])).
Proof.
  intros Hnever.
  unfold run_noizz2025. unfold bind at 1. unfold emit at 1.
  fold (popen_event w). fold (logged st [popen_event w]).
  unfold bind at 1.
  rewrite (wait_for_server_never w 30 0 _ Hnever), logged_logged.
  cbn [negb]. cbv beta iota. unfold bind, emit, ret.
  fold (logged (logged st ([popen_event w] ++ poll_events 30)) [EvTerminate]).
  by rewrite logged_logged, <- app_assoc.
Qed.

(** C5. In full-pipeline mode, when none of the 30 polls of the health
    endpoint sees status 200, [run_noizz2025] returns [False] and [main]
    ends with exit status 1; all that happened is the start of the child
    process, 30 polls each followed by a pause of 1, and the termination
    of the child process: no mapping request, no file removed or
    written, no file changed. *)
Theorem full_pipeline_unhealthy w argv args st :
  parse_args argv no_args = Ok args →
  analyze_only args = false →
  skip_capture args = false →
  (∀ i, (i < 30)%nat → health w i ≠ Some 200%Z) →
  let st' := logged st (popen_event w :: poll_events 30 ++ [EvTerminate]) in
  run_noizz2025 w (config args) (url args) st = (Ok false, st') ∧
  main w argv st = (Raise (SystemExit 1), st') ∧
  exit_status (fst (main w argv st)) = 1%Z ∧
  fs st' = fs st.
Proof.
  intros Hparse Hmode1 Hmode2 Hnever st'.
  pose proof (run_noizz2025_never_ready w (config args) (url args) st Hnever)
    as Hrun.
  assert (main w argv st = (Raise (SystemExit 1), st')) as Hmain.
  { unfold main. rewrite Hparse, Hmode1, Hmode2.
    unfold bind at 1. by rewrite Hrun. }
  split; [done|]. split; [done|]. split; [by rewrite Hmain | done].
Qed.

(** ** The analyzer and the merge *)

Lemma matching_nil pattern (entries : gmap string string) :
  (∀ name, is_Some (entries !! name) → fnmatch pattern name = false) →
  matching pattern entries = [].
Proof.
  intros Hnone. destruct (matching pattern entries) as [|name rest] eqn:Hm;
    [done|].
  assert (name ∈ matching pattern entries) as Hin by (rewrite Hm; by left).
  apply elem_of_matching in Hin as [Hsome Hmatch].
  rewrite (Hnone name Hsome) in Hmatch. done.
Qed.

Lemma glob_spec d pattern st :
  glob d pattern st =
    (Ok (match dirs (fs st) !! d with
         | Some entries => matching pattern entries
         | None => []
         end), st).
Proof. reflexivity. Qed.


Lemma subprocess_run_spec w cmd cwd st :
  subprocess_run w cmd cwd st =
    (Ok (fst (run_node w cmd cwd (fs st))),
     {| fs := snd (run_node w cmd cwd (fs st));
        trace := trace st ++ [EvRun cmd (Some cwd)] |}).
Proof.
  unfold subprocess_run. by destruct (run_node w cmd cwd (fs st)) as [r f].
Qed.

Lemma print_fmt_spec w values s :
  print_fmt w values s =
    (if forallb (printable w) values then Ok tt else Raise UnicodeEncodeError, s).
Proof. unfold print_fmt. by destruct (forallb (printable w) values). Qed.

Lemma print_fmt_one w v s :
  print_fmt w [v] s =
    (if printable w v then Ok tt else Raise UnicodeEncodeError, s).
Proof. rewrite print_fmt_spec. cbn [forallb]. by rewrite andb_true_r. Qed.

(** The merge step: it runs the merge tool and prints its warnings; it
    returns when what the tool wrote is text and the merged output file
    is absent or readable, and raises an [Exception] otherwise. *)
Lemma convert_and_merge_outputs_spec w st :
  let merge := run_node w merge_cmd BASE_DIR (fs st) in
  ∃ e, is_Exception e = true ∧
    convert_and_merge_outputs w st =
      (if merge_returns w merge then Ok tt else Raise e,
       {| fs := snd merge;
          trace := trace st ++ merge_event :: merge_warnings w merge |}).
Proof.
  intros merge. unfold convert_and_merge_outputs, merge_warnings, merge_returns.
  unfold bind at 1. rewrite subprocess_run_spec. fold merge.
  cbn [fst snd]. unfold bind at 1.
  destruct (snd (fst merge)) as [err|]; cbn [decoded].
  2: { exists UnicodeDecodeError. split; [done|]. by unfold raise, merge_event. }
  unfold ret at 1. unfold merged_file_readable.
  unfold bind at 1.
  assert (∀ s, (if negb (fst (fst merge) =? 0)%Z
                then print ("Warning: Merge step had issues: " +:+ err)
                else ret tt) s
             = (Ok tt, logged s (if (fst (fst merge) =? 0)%Z then []
                                 else [merge_warning err])))
    as Hwarn.
  { intros s. destruct (fst (fst merge) =? 0)%Z; simpl;
      [by rewrite logged_nil | done]. }
  rewrite Hwarn. set (s1 := logged _ _).
  change (files (snd merge) !! merged_file)
    with (files (fs s1) !! merged_file).
  assert (s1 = {| fs := snd merge;
                  trace := trace st ++ merge_event ::
                    (if (fst (fst merge) =? 0)%Z then []
                     else [merge_warning err]) ++ [] |}) as Hs1.
  { subst s1. unfold logged, merge_event. cbn [fs trace].
    by rewrite app_nil_r, <- app_assoc. }
  unfold bind at 1. unfold exists_file at 1.
  destruct (files (fs s1) !! merged_file) as [source|] eqn:Hfile.
  2: { exists JSONDecodeError. split; [done|].
       unfold print, emit. subst s1. unfold logged, merged_missing_warning.
       cbn [fs trace]. by rewrite <- !app_assoc. }
  unfold bind at 1. unfold read_file at 1. rewrite Hfile.
  unfold summary_readable. unfold bind at 1. unfold loads.
  destruct (json_load w source) as [[| | | | | |data]|];
    try (exists AttributeError; split; [done|]; by rewrite <- Hs1);
    try (exists JSONDecodeError; split; [done|]; by rewrite <- Hs1).
  unfold ret at 1. cbn [dict_get]. unfold bind at 1, ret at 1.
  change (match data !! "summary" with Some v => v | None => JObj ∅ end)
    with (default (JObj ∅) (data !! "summary")).
  destruct (default (JObj ∅) (data !! "summary")) as [| | | | | |summary];
    try (exists AttributeError; split; [done|]; by rewrite <- Hs1).
  cbn [dict_get]. unfold bind at 1, ret at 1.
  change (match summary !! "total_calls_found" with
          | Some v => v | None => JInt 0 end)
    with (default (JInt 0) (summary !! "total_calls_found")).
  unfold bind at 1. rewrite print_fmt_one.
  destruct (printable w (default (JInt 0) (summary !! "total_calls_found")));
    [|exists UnicodeEncodeError; split; [done|]; by rewrite <- Hs1].
  unfold bind at 1, ret at 1.
  change (match summary !! "unique_calls" with
          | Some v => v | None => JInt 0 end)
    with (default (JInt 0) (summary !! "unique_calls")).
  unfold bind at 1. rewrite print_fmt_one.
  destruct (printable w (default (JInt 0) (summary !! "unique_calls")));
    [|exists UnicodeEncodeError; split; [done|]; by rewrite <- Hs1].
  unfold bind at 1, ret at 1.
  change (match summary !! "sources" with Some v => v | None => JObj ∅ end)
    with (default (JObj ∅) (summary !! "sources")).
  cbn [andb].
  destruct (default (JObj ∅) (summary !! "sources")) as [| | | | | |sources];
    try (exists AttributeError; split; [done|]; by rewrite <- Hs1).
  cbn [dict_get]. unfold bind at 1, ret at 1.
  change (match sources !! "noizz25" with Some v => v | None => JInt 0 end)
    with (default (JInt 0) (sources !! "noizz25")).
  unfold bind at 1. rewrite print_fmt_one.
  destruct (printable w (default (JInt 0) (sources !! "noizz25")));
    [|exists UnicodeEncodeError; split; [done|]; by rewrite <- Hs1].
  unfold bind at 1, ret at 1. cbn [dict_get]. unfold bind at 1, ret at 1.
  change (match sources !! "static_analysis" with
          | Some v => v | None => JInt 0 end)
    with (default (JInt 0) (sources !! "static_analysis")).
  rewrite print_fmt_one. cbn [andb].
  destruct (printable w (default (JInt 0) (sources !! "static_analysis")));
    exists UnicodeEncodeError; (split; [done|]); by rewrite <- Hs1.
Qed.


(** ** The mapping request *)

(** The guarded [try] block, once the configuration file is a JSON
    object: when the start URL can be shown, one mapping request, and
    [True] exactly for an answer with status 200 and a readable body;
    otherwise no request at all. *)
Lemma request_mapping_spec w config_file start_url st source cfg :
  files (fs st) !! or_default config_file (path_join NOIZZ_DIR "config.json")
    = Some source →
  json_load w source = Some (JObj cfg) →
  try_except (request_mapping w config_file start_url) is_Exception
    (fun _ => ret false) st =
  if printable w (shown_start_url cfg start_url) then
    (Ok (match fst (post_map w (sent_config cfg start_url) (fs st)) with
         | Some resp =>
             (status_code resp =? 200)%Z && answer_readable w (text resp)
         | None => false
         end),
     {| fs := snd (post_map w (sent_config cfg start_url) (fs st));
        trace := trace st ++ [post_event (sent_config cfg start_url)] |})
  else (Ok false, st).
Proof.
  intros Hfile Hload.
  unfold try_except, request_mapping.
  unfold bind at 1. unfold read_file at 1. rewrite Hfile.
  unfold bind at 1. unfold loads at 1. rewrite Hload. unfold ret at 1.
  unfold bind at 1.
  assert (∀ s, match start_url with
               | Some (String a rest) =>
                   dict_set (JObj cfg) "start_url" (JStr (String a rest))
               | _ => ret (JObj cfg)
               end s = (Ok (sent_config cfg start_url), s)) as ->.
  { intros s. by destruct start_url as [[|a rest]|]. }
  unfold bind at 1.
  assert (dict_get (sent_config cfg start_url) "start_url" JNull st
          = (Ok (shown_start_url cfg start_url), st)) as ->.
  { unfold sent_config, shown_start_url.
    destruct start_url as [[|a rest]|]; cbn [dict_get]; unfold ret;
      try done. by rewrite lookup_insert_eq. }
  unfold bind at 1. rewrite print_fmt_one.
  destruct (printable w (shown_start_url cfg start_url)); [|done].
  unfold bind at 1. unfold http_post_map at 1.
  fold (post_event (sent_config cfg start_url)).
  destruct (post_map w (sent_config cfg start_url) (fs st)) as [[resp|] f];
    cbn [fst snd]; [|done].
  destruct (status_code resp =? 200)%Z; cbn [andb].
  2: { unfold bind at 1. rewrite print_fmt_one. cbn [printable].
       unfold bind. rewrite print_fmt_one.
       by destruct (printable w (JStr (text resp))). }
  unfold answer_readable, bind at 1, loads at 1.
  destruct (json_load w (text resp)) as [[| | | | | |result]|]; try done.
  unfold ret at 1. cbn [dict_get]. unfold bind at 1, ret at 1.
  change (match result !! "ui_endpoints" with Some v => v | None => JArr [] end)
    with (default (JArr []) (result !! "ui_endpoints")).
  change (match result !! "server_endpoints" with
          | Some v => v | None => JArr [] end)
    with (default (JArr []) (result !! "server_endpoints")).
  change (match result !! "js_files_count" with
          | Some v => v | None => JInt 0 end)
    with (default (JInt 0) (result !! "js_files_count")).
  change (match result !! "output_directory" with
          | Some v => v | None => JNull end)
    with (default JNull (result !! "output_directory")).
  assert (∀ (v : json) (k : nat → M bool) s,
    bind (len v) k s = if sized v then k (match v with
                                          | JStr x => String.length x
                                          | JArr l => length l
                                          | JObj m => size m
                                          | _ => 0%nat
                                          end) s
                       else (Raise TypeError, s)) as Hlen.
  { intros v k s. by destruct v. }
  rewrite Hlen.
  destruct (sized (default (JArr []) (result !! "ui_endpoints"))); [|done].
  cbn [andb]. unfold bind at 1, ret at 1. rewrite Hlen.
  destruct (sized (default (JArr []) (result !! "server_endpoints")));
    [|done].
  cbn [andb]. unfold bind at 1, ret at 1.
  unfold bind at 1. rewrite print_fmt_one.
  destruct (printable w (default (JInt 0) (result !! "js_files_count")));
    [|done].
  cbn [andb]. unfold bind at 1, ret at 1.
  unfold bind at 1. rewrite print_fmt_one.
  by destruct (printable w (default JNull (result !! "output_directory"))).
Qed.

(** C3, as the code has it.  Once the service is healthy within the
    polling budget, the configuration file holds a JSON object and the
    final wait returns, [run_noizz2025] returns, and it returns [True]
    exactly when the start URL can be shown and the mapping request is
    answered with status 200 and a readable body; it returns [False] for
    every other status and when the request raises. *)
Theorem run_noizz2025_true_iff_200 w config_file start_url st source cfg :
  (∃ k, (k < 30)%nat ∧ health w k = Some 200%Z) →
  files (fs st) !! or_default config_file (path_join NOIZZ_DIR "config.json")
    = Some source →
  json_load w source = Some (JObj cfg) →
  wait_ok w = true →
  ∃ b st',
    run_noizz2025 w config_file start_url st = (Ok b, st') ∧
    (b = true ↔
     printable w (shown_start_url cfg start_url) = true ∧
     ∃ resp,
       fst (post_map w (sent_config cfg start_url) (fs st)) = Some resp ∧
       status_code resp = 200%Z ∧
       answer_readable w (text resp) = true).
Proof.
  intros Hready Hfile Hload Hwait.
  unfold run_noizz2025. unfold bind at 1. unfold emit at 1.
  fold (popen_event w). fold (logged st [popen_event w]).
  unfold bind at 1.
  destruct (wait_for_server_spec w 30 0 (logged st [popen_event w]))
    as (ready & polls & -> & Hiff).
  assert (ready = true) as -> by (by apply Hiff).
  cbn [negb]. cbv beta iota. unfold try_finally.
  rewrite (request_mapping_spec w config_file start_url _ source cfg);
    [|done|done].
  destruct (printable w (shown_start_url cfg start_url)) eqn:Hshown.
  - rewrite stop_server_spec, Hwait. cbn [logged fs].
    do 2 eexists. split; [reflexivity|].
    destruct (fst (post_map w (sent_config cfg start_url) (fs st)))
      as [resp|]; split.
    + intros [Hs Ha]%andb_true_iff. split; [done|]. exists resp.
      split; [done|]. split; [by apply Z.eqb_eq | done].
    + intros (_ & resp' & [= <-] & Hs & Ha). apply andb_true_iff.
      split; [by apply Z.eqb_eq | done].
    + done.
    + intros (_ & resp' & ? & _). done.
  - rewrite stop_server_spec, Hwait.
    do 2 eexists. split; [reflexivity|].
    split; [done | by intros [? _]].
Qed.

Lemma run_static_analysis_returns w output_file st :
  ∃ b, fst (run_static_analysis w output_file st) = Ok b.
Proof.
  unfold run_static_analysis. unfold bind at 1. unfold exists_dir at 1.
  destruct (dirs (fs st) !! EXTRACTED_JS_DIR) as [entries|] eqn:Hd;
    cbn [negb]; cbv beta iota; [|by exists false].
  unfold bind at 1. rewrite glob_spec, Hd.
  destruct (matching "*.js" entries) as [|name rest]; [by exists false|].
  unfold bind. rewrite subprocess_run_spec.
  destruct (_ =? 0)%Z; by eexists.
Qed.



(** ** The command line *)

Lemma take_action_with_skip_capture a src next ns :
  take_action a src next (with_skip_capture ns) =
  lift_skip_capture (take_action a src next ns).
Proof. by destruct a. Qed.

Lemma take_actions_with_skip_capture acts next : ∀ ns,
  take_actions acts next (with_skip_capture ns) =
  lift_skip_capture (take_actions acts next ns).
Proof.
  induction acts as [|[a src] acts IH]; intros ns; [done|].
  cbn [take_actions]. rewrite take_action_with_skip_capture.
  destruct (take_action a src next ns) as [ns'|e]; [apply IH | done].
Qed.

(** The flag [--skip-capture] sets its own field and nothing else,
    whatever the other words are. *)
Lemma consume_with_skip_capture words : ∀ ns extras,
  consume words (with_skip_capture ns) extras =
  lift_skip_capture (consume words ns extras).
Proof.
  assert (∀ n words, (length words ≤ n)%nat → ∀ ns extras,
    consume words (with_skip_capture ns) extras =
    lift_skip_capture (consume words ns extras)) as Hall.
  { clear words. induction n as [|n IH]; intros words Hlen ns extras.
    - destruct words; [|simpl in Hlen; lia]. simpl. by destruct extras.
    - destruct words as [|[word cls] rest]; [simpl; by destruct extras|].
      simpl in Hlen. destruct cls as [| |a option_string explicit_arg| |];
        cbn [consume]; try (apply IH; lia).
      destruct (word_actions a option_string explicit_arg) as [acts|];
        [|done].
      destruct (needs_next acts).
      + destruct rest as [|[value cls] rest']; [done|].
        simpl in Hlen. destruct cls; try done.
        rewrite take_actions_with_skip_capture.
        destruct (take_actions acts value ns) as [ns'|e]; [|done].
        apply IH. lia.
      + rewrite take_actions_with_skip_capture.
        destruct (take_actions acts "" ns) as [ns'|e]; [|done].
        apply IH. lia. }
  intros ns extras. apply (Hall (length words)). lia.
Qed.

Lemma parse_args_skip_capture_first argv args :
  parse_args argv no_args = Ok args →
  parse_args ("--skip-capture" :: argv) no_args = Ok (with_skip_capture args).
Proof.
  unfold parse_args.
  change (classify ("--skip-capture" :: argv))
    with (("--skip-capture", Known SkipCapture "--skip-capture" None)
          :: classify argv).
  cbn [existsb is_ambiguous snd orb].
  destruct (existsb is_ambiguous (classify argv)); [done|].
  intros Hparse. cbn [consume word_actions takes_argument needs_next existsb
                      snd take_actions take_action].
  change {| url := url no_args; config := config no_args;
            skip_capture := true; analyze_only := analyze_only no_args;
            js_dir := js_dir no_args; output := output no_args |}
    with (with_skip_capture no_args).
  by rewrite consume_with_skip_capture, Hparse.
Qed.

Lemma analysis_only_mode_exits w args st :
  ∃ (b : bool) st',
    analysis_only_mode w args st =
      (Raise (SystemExit (if b then 0 else 1)%Z), st') ∧
    (trace st' = trace st ∨
     trace st' =
       trace st ++
       [EvRun (analysis_cmd (absolute w (target_dir (js_dir args)))
                 (output args)) (Some STATIC_ANALYSIS_DIR)]).
Proof.
  unfold analysis_only_mode, run_static_analysis_only. cbv zeta.
  unfold bind at 1. unfold bind at 1. unfold exists_dir at 1.
  destruct (dirs (fs st) !! target_dir (js_dir args)) as [entries|] eqn:Hd;
    cbn [negb]; cbv beta iota.
  2: { exists false, st. split; [done | by left]. }
  unfold bind at 1. rewrite glob_spec, Hd.
  destruct (matching "*.js" entries) as [|name rest].
  { exists false, st. split; [done | by left]. }
  unfold bind at 1. rewrite subprocess_run_spec. unfold ret, sys_exit, raise.
  eexists _, _. split; [reflexivity | by right].
Qed.

(** C9, as the code has it.  An invocation whose command line sets both
    mode flags, in whatever order and spelling, is not rejected: it
    does what the analysis-only mode does with its [--js-dir] and
    [--output], that is, at most one run of the analyzer and an exit
    status of 0 or 1, and so it does what every invocation does that
    selects the analysis-only mode with the same two options.  In
    particular [--skip-capture] can be put before any invocation that
    selects the analysis-only mode: the parser accepts it, with both
    flags set, and the process does what it did without it. *)
Theorem analyze_only_takes_precedence w argv args st :
  parse_args argv no_args = Ok args →
  skip_capture args = true →
  analyze_only args = true →
  ¬ rejected w argv st ∧
  main w argv st = analysis_only_mode w args st ∧
  (∃ (b : bool) st',
     main w argv st = (Raise (SystemExit (if b then 0 else 1)%Z), st') ∧
     (trace st' = trace st ∨
      trace st' =
        trace st ++
        [EvRun (analysis_cmd (absolute w (target_dir (js_dir args)))
                  (output args)) (Some STATIC_ANALYSIS_DIR)])) ∧
  (∀ argv' args',
     parse_args argv' no_args = Ok args' →
     analyze_only args' = true →
     js_dir args' = js_dir args →
     output args' = output args →
     main w argv' st = main w argv st) ∧
  (∀ argv' args',
     parse_args argv' no_args = Ok args' →
     analyze_only args' = true →
     parse_args ("--skip-capture" :: argv') no_args
       = Ok (with_skip_capture args') ∧
     skip_capture (with_skip_capture args') = true ∧
     analyze_only (with_skip_capture args') = true ∧
     main w ("--skip-capture" :: argv') st = main w argv' st).
Proof.
  intros Hparse Hskip Hmode.
  assert (∀ argv' args',
    parse_args argv' no_args = Ok args' → analyze_only args' = true →
    main w argv' st = analysis_only_mode w args' st) as Hmain.
  { intros argv' args' Hparse' Hmode'. unfold main.
    by rewrite Hparse', Hmode'. }
  destruct (analysis_only_mode_exits w args st) as (b & st' & Hexit & Htrace).
  split; [|split; [|split; [|split]]].
  - unfold rejected. rewrite (Hmain argv args Hparse Hmode), Hexit.
    intros [= Hcode _]. by destruct b.
  - by apply Hmain.
  - exists b, st'. by rewrite (Hmain argv args Hparse Hmode).
  - intros argv' args' Hparse' Hmode' Hdir Hout.
    rewrite (Hmain argv' args' Hparse' Hmode'), (Hmain argv args Hparse Hmode).
    unfold analysis_only_mode. by rewrite Hdir, Hout.
  - intros argv' args' Hparse' Hmode'.
    pose proof (parse_args_skip_capture_first argv' args' Hparse') as Hboth.
    split; [done|]. split; [done|]. split; [done|].
    rewrite (Hmain _ _ Hboth Hmode'), (Hmain _ _ Hparse' Hmode').
    reflexivity.
Qed.

(** * Worked scenarios and concrete instances *)

(** The scenario of the design note: [a.js] is created with the text of
    [a.json], the count is 1, [b.js] is not created; the stale [old.js]
    is gone and [notes.txt] is kept. *)
Example extract_scenario :
  let r := extract_js_from_json_files healthy_world used in
  fst r = Ok 1%nat ∧
  out_entries (snd r) !! "a.js" = Some "console.log(1)" ∧
  out_entries (snd r) !! "b.js" = None ∧
  out_entries (snd r) !! "old.js" = None ∧
  out_entries (snd r) !! "notes.txt" = Some "keep".
Proof. vm_compute. repeat split; reflexivity. Qed.

(** Two different file names can have the same stem. *)
Example stem_collision : stem ".json" = stem ".json.json".
Proof. reflexivity. Qed.

(** The lone surrogate is a string that cannot be encoded; the last
    character before the surrogates, [U+D7FF], can. *)
Example lone_surrogate_unencodable :
  utf8_encodable lone_surrogate = false ∧
  utf8_encodable
    (String "237"%char (String "159"%char (String "191"%char EmptyString)))
    = true.
Proof. split; reflexivity. Qed.

(** A record whose name is not UTF-8.  On a console with the handler
    [strict] the line that reports its extraction cannot be printed, and
    neither can the line of the handler: the extraction raises, with the
    script written.  In the C locale both lines pass and the extraction
    returns 1. *)
Example misnamed_record :
  names_printable healthy_world misnamed = false ∧
  fst (extract_js_from_json_files healthy_world misnamed)
    = Raise UnicodeEncodeError ∧
  out_entries (snd (extract_js_from_json_files healthy_world misnamed))
    !! (escaped_byte +:+ ".js") = Some "console.log(1)" ∧
  names_printable c_locale_world misnamed = true ∧
  fst (extract_js_from_json_files c_locale_world misnamed) = Ok 1%nat.
Proof. vm_compute. repeat split; reflexivity. Qed.






Lemma extract_keeps_other_files_witness :
  out_entries (snd (extract_js_from_json_files healthy_world used))
    !! "notes.txt" = out_entries used !! "notes.txt".
Proof.
  apply (extract_keeps_other_files healthy_world used "notes.txt").
  vm_compute. reflexivity.
Defined.

Lemma full_pipeline_unhealthy_witness :
  let st' := logged fresh
               (popen_event dead_world :: poll_events 30 ++ [EvTerminate]) in
  run_noizz2025 dead_world None None fresh = (Ok false, st') ∧
  main dead_world [] fresh = (Raise (SystemExit 1), st') ∧
  exit_status (fst (main dead_world [] fresh)) = 1%Z ∧
  fs st' = fs fresh.
Proof.
  apply (full_pipeline_unhealthy dead_world [] no_args fresh).
  - reflexivity.
  - reflexivity.
  - reflexivity.
  - intros i _. simpl. discriminate.
Defined.


(** C3 fails as the design note states it: the mapping request is
    answered with 201, a 2xx status, and [run_noizz2025] returns
    [False].  A 200 answer is a failure too when its body is not JSON,
    when a list of endpoints in it has no length, and when its output
    directory cannot be printed; and when the start URL of the
    configuration cannot be printed the result is [False] without any
    mapping request. *)
Lemma created_answer_is_a_failure :
  (fst (post_map created_world
          (sent_config {["start_url" := JStr "http://localhost:4200"]} None)
          fresh_fs)
     = Some (Response 201 answer_text) ∧
   is_2xx 201 = true ∧
   fst (run_noizz2025 created_world None None fresh) = Ok false) ∧
  fst (run_noizz2025 garbled_world None None fresh) = Ok false ∧
  fst (run_noizz2025 unsized_answer_world None None fresh) = Ok false ∧
  fst (run_noizz2025 unprintable_answer_world None None fresh) = Ok false ∧
  (fst (run_noizz2025 healthy_world None None fresh) = Ok true ∧
   fst (run_noizz2025 healthy_world None None misconfigured) = Ok false ∧
   trace (snd (run_noizz2025 healthy_world None None misconfigured)) =
     ready_events healthy_world 2 ++ [kill_event healthy_world; EvWait 5]).
Proof. vm_compute. repeat split; reflexivity. Qed.

Lemma run_noizz2025_true_iff_200_witness :
  ∃ b st',
    run_noizz2025 healthy_world None (Some "http://localhost:4200") fresh
      = (Ok b, st') ∧
    (b = true ↔
     printable healthy_world
       (shown_start_url {["start_url" := JStr "http://localhost:4200"]}
          (Some "http://localhost:4200")) = true ∧
     ∃ resp,
       fst (post_map healthy_world
              (sent_config {["start_url" := JStr "http://localhost:4200"]}
                 (Some "http://localhost:4200")) (fs fresh)) = Some resp ∧
       status_code resp = 200%Z ∧
       answer_readable healthy_world (text resp) = true).
Proof.
  apply (run_noizz2025_true_iff_200 healthy_world None
           (Some "http://localhost:4200") fresh config_text).
  - exists 2%nat. split; [lia | reflexivity].
  - vm_compute. reflexivity.
  - vm_compute. reflexivity.
  - reflexivity.
Defined.



(** C9 fails as the design note states it: the invocation with both mode
    flags is accepted, in either order and abbreviated; it runs the
    analyzer and ends with exit status 0. *)
Lemma both_mode_flags_are_accepted :
  let both := {| url := None; config := None; skip_capture := true;
                 analyze_only := true; js_dir := None; output := None |} in
  parse_args both_modes no_args = Ok both ∧
  parse_args both_modes_reversed no_args = Ok both ∧
  parse_args both_modes_abbreviated no_args = Ok both ∧
  fst (main healthy_world both_modes used) = Raise (SystemExit 0) ∧
  trace (snd (main healthy_world both_modes used)) =
    [EvRun (analysis_cmd (absolute healthy_world EXTRACTED_JS_DIR) None)
       (Some STATIC_ANALYSIS_DIR)] ∧
  ¬ rejected healthy_world both_modes used ∧
  ¬ rejected healthy_world both_modes_reversed used.
Proof.
  cbv zeta.
  split; [reflexivity|]. split; [reflexivity|]. split; [reflexivity|].
  split; [vm_compute; reflexivity|].
  split; [vm_compute; reflexivity|].
  split; unfold rejected; vm_compute; discriminate.
Qed.

Lemma analyze_only_takes_precedence_witness :
  let argv := both_modes_reversed in
  let args := {| url := None; config := None; skip_capture := true;
                 analyze_only := true; js_dir := None; output := None |} in
  ¬ rejected healthy_world argv used ∧
  main healthy_world argv used = analysis_only_mode healthy_world args used ∧
  (∃ (b : bool) st',
     main healthy_world argv used
       = (Raise (SystemExit (if b then 0 else 1)%Z), st') ∧
     (trace st' = trace used ∨
      trace st' =
        trace used ++
        [EvRun (analysis_cmd
                  (absolute healthy_world (target_dir (js_dir args)))
                  (output args)) (Some STATIC_ANALYSIS_DIR)])) ∧
  (∀ argv' args',
     parse_args argv' no_args = Ok args' →
     analyze_only args' = true →
     js_dir args' = js_dir args →
     output args' = output args →
     main healthy_world argv' used = main healthy_world argv used) ∧
  (∀ argv' args',
     parse_args argv' no_args = Ok args' →
     analyze_only args' = true →
     parse_args ("--skip-capture" :: argv') no_args
       = Ok (with_skip_capture args') ∧
     skip_capture (with_skip_capture args') = true ∧
     analyze_only (with_skip_capture args') = true ∧
     main healthy_world ("--skip-capture" :: argv') used
       = main healthy_world argv' used).
Proof.
  apply (analyze_only_takes_precedence healthy_world both_modes_reversed
           {| url := None; config := None; skip_capture := true;
              analyze_only := true; js_dir := None; output := None |} used).
  - reflexivity.
  - reflexivity.
  - reflexivity.
Defined.

(** * Further properties *)

(** ** Names of scripts *)

(** X21. A capture record named [<p>.json], with [p] not empty, gives
    the script [<p>.js]: the extension is replaced.  The hidden file
    [.json] has no extension to replace and gives [.json.js]. *)
Theorem script_name_replaces_extension p :
  (p ≠ "" → stem (p +:+ ".json") +:+ ".js" = p +:+ ".js") ∧
  stem ".json" +:+ ".js" = ".json.js".
Proof.
  split; [|reflexivity]. intros Hp. by rewrite stem_json.
Qed.

(** ** More on the extraction *)

Lemma failures_bounds w src name :
  if extractable w src name then failures w src name = 0%nat
  else (1 ≤ failures w src name ≤ 2)%nat.
Proof.
  unfold extractable, failures.
  destruct (src !! name) as [source|]; [|lia].
  destruct (record_content w source) as [c|].
  - destruct (utf8_encodable c); lia.
  - destruct (report_printable w source); lia.
Qed.

Lemma sum_failures_bounds w src names :
  let skipped :=
    length (List.filter (fun r => negb (extractable w src r)) names) in
  (skipped ≤ sum_list (failures w src <$> names) ≤ 2 * skipped)%nat.
Proof.
  cbv zeta. induction names as [|name names IH]; [simpl; lia|].
  rewrite fmap_cons. cbn [sum_list_with List.filter].
  set (rest := sum_list_with id (failures w src <$> names)) in *.
  set (others := List.filter _ names) in *. unfold id.
  pose proof (failures_bounds w src name) as Hname.
  destruct (extractable w src name); cbn [negb length]; lia.
Qed.

(** X1. Over records whose names can be printed the loop never raises;
    the extracted count grows by the number of records that count as
    extracted, and the failure count by one or two for each of the
    others. *)
Theorem extract_loop_counts_every_record w names n f st src out :
  dirs (fs st) !! JS_FILES_JSON_DIR = Some src →
  dirs (fs st) !! EXTRACTED_JS_DIR = Some out →
  forallb (console_encodable w) names = true →
  let skipped :=
    length (List.filter (fun r => negb (extractable w src r)) names) in
  ∃ n' f' st',
    extract_loop w names (n, f) st = ((Ok tt, (n', f')), st') ∧
    n' = (n + length (List.filter (extractable w src) names))%nat ∧
    (f + skipped ≤ f' ≤ f + 2 * skipped)%nat.
Proof.
  intros Hsrc Hout Hall skipped.
  destruct (extract_loop_spec w names n f st src out Hsrc Hout
              (admissible_printable w _ Hall)) as (c' & Hloop & Hc').
  rewrite Hall, (Hc' Hall) in Hloop.
  do 3 eexists. split; [exact Hloop|]. split; [done|].
  pose proof (sum_failures_bounds w src names) as Hsum. cbv zeta in Hsum.
  subst skipped. lia.
Qed.

Lemma filter_extractable_nil w src names :
  List.filter (extractable w src) names = [] ↔
  ∀ name, name ∈ names → extractable w src name = false.
Proof.
  induction names as [|name names IH].
  { split; [|done]. intros _ x Hx. by apply elem_of_nil in Hx. }
  cbn [List.filter].
  destruct (extractable w src name) eqn:Hex; split.
  - done.
  - intros Hall. specialize (Hall name ltac:(by left)). congruence.
  - intros Hnil x [->|Hin]%elem_of_cons; [done|]. by apply IH.
  - intros Hall. apply IH. intros x Hx. apply Hall. by right.
Qed.

(** X2. The extraction returns 0 exactly when the names of all records
    can be printed and no record of the source directory counts as
    extracted: each lacks usable content, or has a content that cannot
    be encoded (in particular when there is no record, or no source
    directory). *)
Theorem extract_returns_zero_iff w st :
  fst (extract_js_from_json_files w st) = Ok 0%nat ↔
  names_printable w st = true ∧
  ∀ record source,
    src_entries st !! record = Some source →
    fnmatch "*.json" record = true →
    lacks_content w source ∨
    ∃ c, record_content w source = Some c ∧ utf8_encodable c = false.
Proof.
  rewrite extract_js_from_json_files_spec. cbn [fst].
  destruct (names_printable w st); [|split; [done | by intros [? _]]].
  split.
  - intros [= Hlen]. split; [done|]. intros record source Hsrc Hrec.
    apply length_zero_iff_nil, filter_extractable_nil
      with (name := record) in Hlen; [|apply elem_of_matching; eauto].
    unfold extractable in Hlen. rewrite Hsrc in Hlen.
    destruct (record_content w source) as [c|] eqn:Hc.
    + right. by exists c.
    + left. by apply record_content_None.
  - intros [_ Hnone]. f_equal. apply length_zero_iff_nil.
    apply filter_extractable_nil.
    intros record [[source Hsrc] Hrec]%elem_of_matching.
    unfold extractable. rewrite Hsrc.
    destruct (Hnone record source Hsrc Hrec) as [Hl | (c & -> & Hc)]; [|done].
    apply record_content_None in Hl. by rewrite Hl.
Qed.

(** X3. The extraction changes no file outside the extraction
    directory.  It makes the two directories above the extraction
    directory when they are missing, and leaves them as they are
    otherwise; the source directory with its capture records, every
    other directory and every file addressed by path are as before. *)
Theorem extract_touches_only_extraction_dir w st :
  let st' := snd (extract_js_from_json_files w st) in
  files (fs st') = files (fs st) ∧
  dirs (fs st') !! NOIZZ_DIR = Some (default ∅ (dirs (fs st) !! NOIZZ_DIR)) ∧
  dirs (fs st') !! MAPPING_OUTPUT_DIR
    = Some (default ∅ (dirs (fs st) !! MAPPING_OUTPUT_DIR)) ∧
  ∀ d, d ≠ EXTRACTED_JS_DIR → d ≠ NOIZZ_DIR → d ≠ MAPPING_OUTPUT_DIR →
    dirs (fs st') !! d = dirs (fs st) !! d.
Proof.
  cbv zeta. rewrite extract_js_from_json_files_spec. cbn [snd].
  assert (∀ d out evs, d ≠ EXTRACTED_JS_DIR →
    dirs (fs (with_out (prepared st) out evs)) !! d
    = dirs (fs (prepared st)) !! d) as Hother.
  { intros d out evs Hd. simpl. by rewrite lookup_insert_ne. }
  split; [apply prepared_files|].
  split; [|split].
  - rewrite Hother by discriminate. rewrite prepared_dirs.
    by rewrite decide_True by left.
  - rewrite Hother by discriminate. rewrite prepared_dirs.
    by rewrite decide_True by (right; left).
  - intros d H1 H2 H3. rewrite Hother by done. rewrite prepared_dirs.
    rewrite decide_False; [done|].
    intros Hin. repeat (apply elem_of_cons in Hin as [Hin|Hin]; [done|]).
    by apply elem_of_nil in Hin.
Qed.

(** X4. With no source directory the extraction returns 0 and writes
    nothing, but it still makes the extraction directory and removes
    the scripts of an earlier run from it. *)
Theorem extract_without_source w st :
  dirs (fs st) !! JS_FILES_JSON_DIR = None →
  extract_js_from_json_files w st =
    (Ok 0%nat,
     with_out (prepared st) (cleared (out_entries st))
       (EvUnlink EXTRACTED_JS_DIR <$> matching "*.js" (out_entries st))) ∧
  is_Some (dirs (fs (snd (extract_js_from_json_files w st)))
             !! EXTRACTED_JS_DIR) ∧
  ∀ name,
    out_entries (snd (extract_js_from_json_files w st)) !! name =
    if fnmatch "*.js" name then None else out_entries st !! name.
Proof.
  intros Hnone. rewrite extract_js_from_json_files_spec.
  assert (records st = []) as Hrecords.
  { unfold records, src_entries. rewrite Hnone. simpl.
    by rewrite matching_empty. }
  unfold names_printable, scripts. rewrite Hrecords.
  simpl. rewrite app_nil_r. split; [done|]. split.
  - rewrite lookup_insert_eq. eauto.
  - intros name. rewrite out_entries_with_out.
    change (ends_with ".js" name) with (fnmatch "*.js" name).
    by rewrite lookup_cleared.
Qed.

Lemma append_inj_r suffix : ∀ p q, p +:+ suffix = q +:+ suffix → p = q.
Proof.
  assert (∀ a r, suffix ≠ String a (r +:+ suffix)) as Hlen.
  { intros a r H. apply (f_equal String.length) in H.
    simpl in H. rewrite length_append in H. lia. }
  induction p as [|a p IH]; intros [|b q] H.
  - done.
  - by apply Hlen in H.
  - symmetry in H. by apply Hlen in H.
  - change (String a (p +:+ suffix) = String b (q +:+ suffix)) in H.
    injection H as -> H. f_equal. by apply IH.
Qed.

(** Two capture records with the same stem are the same record, unless
    one of them is the hidden file [.json]. *)
Lemma stem_json_inj n1 n2 :
  fnmatch "*.json" n1 = true → fnmatch "*.json" n2 = true →
  n1 ≠ ".json" → n2 ≠ ".json" →
  stem n1 = stem n2 → n1 = n2.
Proof.
  intros [p1 ->]%ends_with_split [p2 ->]%ends_with_split H1 H2.
  assert (p1 ≠ "") as Hp1 by (by intros ->).
  assert (p2 ≠ "") as Hp2 by (by intros ->).
  rewrite !stem_json by done. by intros ->.
Qed.

Lemma scripts_names_NoDup w st :
  src_entries st !! ".json" = None →
  NoDup (scripts_of w (src_entries st) (records st)).*1.
Proof.
  intros Hdot. unfold records.
  pose proof (NoDup_matching "*.json" (src_entries st)) as Hnd.
  assert (∀ name, name ∈ matching "*.json" (src_entries st) →
          fnmatch "*.json" name = true ∧ name ≠ ".json") as Hok.
  { intros name [[source Hs] Hm]%elem_of_matching. split; [done|].
    intros ->. congruence. }
  induction (matching "*.json" (src_entries st)) as [|name names IH].
  - constructor.
  - apply NoDup_cons in Hnd as [Hfresh Hnd].
    specialize (IH Hnd (fun x Hx => Hok x (list_elem_of_further _ _ _ Hx))).
    rewrite scripts_of_cons.
    destruct (extracted_script w (src_entries st) name) as [p|] eqn:Hp;
      [|done].
    rewrite fmap_cons. apply NoDup_cons. split; [|done].
    intros Hin. apply list_elem_of_fmap in Hin as (q & Hq1 & Hq).
    apply elem_of_scripts_of in Hq
      as (name' & source' & c' & Hin' & _ & _ & ->).
    unfold extracted_script in Hp.
    destruct (src_entries st !! name) as [source|]; [|done].
    destruct (record_content w source) as [c|]; [|done].
    injection Hp as <-. simpl in Hq1. apply append_inj_r in Hq1.
    destruct (Hok name ltac:(by left)) as [Hm Hne].
    destruct (Hok name' ltac:(by right)) as [Hm' Hne'].
    assert (name = name') as <- by (by apply stem_json_inj).
    done.
Qed.

(** X5. When no capture record is the hidden file [.json] and the names
    of all records can be printed, every record with usable content has
    its own script at the end of the run: [<stem>.js] holds the content
    of the record as the platform writes text, or nothing when the
    content cannot be encoded. *)
Theorem extract_final_contents w st name source c :
  src_entries st !! ".json" = None →
  names_printable w st = true →
  src_entries st !! name = Some source →
  fnmatch "*.json" name = true →
  record_content w source = Some c →
  out_entries (snd (extract_js_from_json_files w st)) !! (stem name +:+ ".js")
  = Some (if utf8_encodable c then text_mode w c else "").
Proof.
  intros Hdot Hnames Hsrc Hm Hc. rewrite extract_out_lookup.
  rewrite scripts_printable by done.
  assert (stem name +:+ ".js"
          ∈ (scripts_of w (src_entries st) (records st)).*1) as Hin.
  { apply list_elem_of_fmap.
    exists (stem name +:+ ".js", written_text w c). split; [done|].
    apply elem_of_scripts_of. exists name, source, c.
    split; [|done]. apply elem_of_matching. eauto. }
  destruct (lookup_put_scripts_in _ (cleared (out_entries st)) _ Hin)
    as (c' & Hc' & ->).
  apply elem_of_scripts_of in Hc'
    as (name' & source' & c'' & Hin' & Hsrc' & Hcontent' & [= Hst ->]).
  apply append_inj_r in Hst.
  apply elem_of_matching in Hin' as [_ Hm'].
  assert (name = name') as <-.
  { apply stem_json_inj; try done; intros ->; congruence. }
  assert (source' = source) as -> by congruence.
  assert (c'' = c) as -> by congruence. done.
Qed.

Lemma length_scripts_of w src names :
  length (scripts_of w src names) =
  (length (List.filter (extractable w src) names) +
   length (List.filter (emptied w src) names))%nat.
Proof.
  induction names as [|name names IH]; [done|].
  rewrite scripts_of_cons. cbn [List.filter].
  unfold extracted_script, extractable at 1, emptied at 1.
  destruct (src !! name) as [source|]; [|done].
  destruct (record_content w source) as [c|]; [|done].
  destruct (utf8_encodable c); cbn [negb length]; lia.
Qed.

(** X6. When no capture record is the hidden file [.json] and the names
    of all records can be printed, the extraction directory holds
    afterwards one [*.js] file for each record that counts in the count
    returned, and one, empty, for each record whose content cannot be
    encoded. *)
Theorem extract_count_is_number_of_scripts w st :
  src_entries st !! ".json" = None →
  names_printable w st = true →
  ∃ n,
    fst (extract_js_from_json_files w st) = Ok n ∧
    length (matching "*.js"
              (out_entries (snd (extract_js_from_json_files w st)))) =
    (n + length (List.filter (emptied w (src_entries st)) (records st)))%nat.
Proof.
  intros Hdot Hnames.
  assert (matching "*.js"
            (out_entries (snd (extract_js_from_json_files w st)))
          ≡ₚ (scripts w st).*1) as Hperm.
  { apply NoDup_Permutation.
    - apply NoDup_matching.
    - rewrite scripts_printable by done. by apply scripts_names_NoDup.
    - intros name. rewrite elem_of_matching, extract_out_lookup. split.
      + intros [Hsome Hjs].
        destruct (decide (name ∈ (scripts w st).*1)) as [|Hnotin]; [done|].
        rewrite lookup_put_scripts_notin, lookup_cleared, Hjs in Hsome by done.
        by destruct Hsome.
      + intros Hin. split.
        * destruct (lookup_put_scripts_in _ (cleared (out_entries st)) _ Hin)
            as (c & _ & ->). eauto.
        * apply list_elem_of_fmap in Hin as (p & -> & Hp).
          by apply scripts_of_js in Hp. }
  exists (length (List.filter (extractable w (src_entries st)) (records st))).
  split.
  - by rewrite extract_js_from_json_files_spec, Hnames.
  - rewrite Hperm, length_fmap, scripts_printable by done.
    apply length_scripts_of.
Qed.

(** ** More on the capture step *)

Lemma wait_for_server_first w n : ∀ k i st,
  (k < n)%nat →
  (∀ j, (j < k)%nat → health w (i + j) ≠ Some 200%Z) →
  health w (i + k) = Some 200%Z →
  wait_for_server w n i st =
    (Ok true, logged st (poll_events k ++ [EvGet health_url 2])).
Proof.
  induction n as [|n IH]; intros k i st Hk Hbefore Hat; [lia|].
  rewrite wait_for_server_step. destruct k as [|k].
  - rewrite Nat.add_0_r in Hat. by rewrite Hat.
  - pose proof (Hbefore 0%nat ltac:(lia)) as H0. rewrite Nat.add_0_r in H0.
    assert (wait_for_server w n (S i)
              (logged st [EvGet health_url 2; EvSleep 1])
            = (Ok true,
               logged st (poll_events (S k) ++ [EvGet health_url 2]))) as Hrest.
    { rewrite (IH k (S i)).
      - by rewrite logged_logged.
      - lia.
      - intros j Hj. replace (S i + j)%nat with (i + S j)%nat by lia.
        apply Hbefore. lia.
      - by replace (S i + k)%nat with (i + S k)%nat by lia. }
    destruct (health w i) as [status|]; [|done].
    destruct (status =? 200)%Z eqn:Hs; [|done].
    apply Z.eqb_eq in Hs as ->. done.
Qed.

(** X7. The polling loop stops at the first poll that sees status 200,
    without a pause after it, when that poll is within the budget; a
    service that is first healthy at a later poll is given up after the
    whole budget of polls and pauses. *)
Theorem polling_stops_at_first_healthy w n k st :
  first_healthy w k →
  wait_for_server w n 0 st =
    if (k <? n)%nat
    then (Ok true, logged st (poll_events k ++ [EvGet health_url 2]))
    else (Ok false, logged st (poll_events n)).
Proof.
  intros [Hat Hbefore]. destruct (k <? n)%nat eqn:Hk.
  - apply Nat.ltb_lt in Hk. by apply wait_for_server_first.
  - apply Nat.ltb_ge in Hk. apply wait_for_server_never.
    intros j Hj. apply Hbefore. lia.
Qed.

(** The capture step when the service is healthy within the budget: the
    guarded mapping request, then the [finally] block. *)
Lemma run_noizz2025_ready_at w config_file start_url st k :
  first_healthy w k → (k < 30)%nat →
  run_noizz2025 w config_file start_url st =
    (if wait_ok w
     then fst (try_except (request_mapping w config_file start_url)
                 is_Exception (fun _ => ret false)
                 (logged st (ready_events w k)))
     else Raise TimeoutExpired,
     logged (snd (try_except (request_mapping w config_file start_url)
                    is_Exception (fun _ => ret false)
                    (logged st (ready_events w k))))
       [kill_event w; EvWait 5]).
Proof.
  intros [Hat Hbefore] Hk.
  unfold run_noizz2025. unfold bind at 1. unfold emit at 1.
  fold (popen_event w). fold (logged st [popen_event w]).
  unfold bind at 1.
  rewrite (wait_for_server_first w 30 k 0 _ Hk Hbefore Hat), logged_logged.
  cbn [negb]. cbv beta iota. unfold try_finally.
  change ([popen_event w] ++ poll_events k ++ [EvGet health_url 2])
    with (ready_events w k).
  destruct (try_except _ _ _ _) as [r s']. rewrite stop_server_spec.
  fold (kill_event w). cbn [fst snd]. by destruct (wait_ok w).
Qed.

Lemma request_mapping_no_config w config_file start_url st :
  loaded_config w st config_file = None →
  try_except (request_mapping w config_file start_url) is_Exception
    (fun _ => ret false) st = (Ok false, st).
Proof.
  unfold loaded_config, try_except, request_mapping.
  unfold bind at 1. unfold read_file at 1.
  destruct (files (fs st) !! _) as [source|]; [|done].
  unfold bind at 1. unfold loads at 1.
  destruct (json_load w source) as [[| | | | | |cfg]|]; try done;
    intros _; unfold ret at 1; unfold bind at 1;
    (destruct start_url as [[|a rest]|]; [| |]; done).
Qed.

(** X8. When the service is healthy but the configuration file is
    missing, is not JSON, or does not hold an object, no mapping request
    is made: the server is stopped right after the successful poll, no
    file changes, and the result is [False]. *)
Theorem capture_fails_without_config w config_file start_url st k :
  first_healthy w k → (k < 30)%nat →
  loaded_config w st config_file = None →
  run_noizz2025 w config_file start_url st =
    (if wait_ok w then Ok false else Raise TimeoutExpired,
     logged st (ready_events w k ++ [kill_event w; EvWait 5])).
Proof.
  intros Hfirst Hk Hnone.
  rewrite (run_noizz2025_ready_at w config_file start_url st k Hfirst Hk).
  rewrite request_mapping_no_config by done.
  cbn [fst snd]. by rewrite logged_logged.
Qed.

Lemma loaded_config_Some w st config_file cfg :
  loaded_config w st config_file = Some cfg →
  ∃ source,
    files (fs st) !!
      or_default config_file (path_join NOIZZ_DIR "config.json") = Some source ∧
    json_load w source = Some (JObj cfg).
Proof.
  unfold loaded_config.
  destruct (files (fs st) !! _) as [source|] eqn:Hfile; [|done].
  destruct (json_load w source) as [[| | | | | |m]|] eqn:Hload; try done.
  intros [= ->]. by exists source.
Qed.

(** X9. When the service is healthy and the configuration file holds an
    object, the start URL to show is that of the object, replaced by the
    given URL when there is one that is not empty.  When it can be
    printed, exactly one mapping request is made, right after the
    successful poll, and the configuration it carries is the object with
    [start_url] replaced in the same way; when it cannot be printed, no
    request is made.  Either way the server is stopped next. *)
Theorem start_url_overrides_config w config_file start_url st k cfg :
  first_healthy w k → (k < 30)%nat →
  loaded_config w st config_file = Some cfg →
  ∃ sent,
    trace (snd (run_noizz2025 w config_file start_url st)) =
      trace st ++ ready_events w k ++
      (if printable w (shown_start_url cfg start_url)
       then [post_event (JObj sent)] else []) ++
      [kill_event w; EvWait 5] ∧
    (∀ key, key ≠ "start_url" → sent !! key = cfg !! key) ∧
    sent !! "start_url" =
      match start_url with
      | Some (String a rest) => Some (JStr (String a rest))
      | _ => cfg !! "start_url"
      end.
Proof.
  intros Hfirst Hk Hcfg.
  apply loaded_config_Some in Hcfg as (source & Hfile & Hload).
  rewrite (run_noizz2025_ready_at w config_file start_url st k Hfirst Hk).
  rewrite (request_mapping_spec w config_file start_url _ source cfg)
    by done.
  assert (∃ sent, sent_config cfg start_url = JObj sent ∧
    (∀ key, key ≠ "start_url" → sent !! key = cfg !! key) ∧
    sent !! "start_url" =
      match start_url with
      | Some (String a rest) => Some (JStr (String a rest))
      | _ => cfg !! "start_url"
      end) as (sent & Hsent & Hkeys & Hurl).
  { destruct start_url as [[|a rest]|]; simpl sent_config.
    - by exists cfg.
    - exists (<["start_url" := JStr (String a rest)]> cfg).
      split; [done|]. split.
      + intros key Hkey. by rewrite lookup_insert_ne.
      + by rewrite lookup_insert_eq.
    - by exists cfg. }
  exists sent. split; [|done]. rewrite Hsent.
  destruct (printable w (shown_start_url cfg start_url));
    cbn [fst snd logged trace]; by rewrite <- !app_assoc.
Qed.

(** X10. When the service was healthy and the stopped server does not
    end within the final wait, [run_noizz2025] raises whatever the
    mapping request gave, and in full-pipeline mode the process ends
    with exit status 1 at that point, before any extraction. *)
Theorem wait_timeout_is_fatal w argv args st k :
  first_healthy w k → (k < 30)%nat →
  wait_ok w = false →
  parse_args argv no_args = Ok args →
  analyze_only args = false →
  skip_capture args = false →
  fst (run_noizz2025 w (config args) (url args) st) = Raise TimeoutExpired ∧
  main w argv st =
    (Raise TimeoutExpired,
     snd (run_noizz2025 w (config args) (url args) st)) ∧
  exit_status (fst (main w argv st)) = 1%Z.
Proof.
  intros Hfirst Hk Hwait Hparse Hmode1 Hmode2.
  pose proof (run_noizz2025_ready_at w (config args) (url args) st k Hfirst Hk)
    as Hrun.
  rewrite Hwait in Hrun.
  assert (main w argv st =
          (Raise TimeoutExpired,
           snd (run_noizz2025 w (config args) (url args) st))) as Hmain.
  { unfold main. rewrite Hparse, Hmode1, Hmode2.
    unfold bind at 1. by rewrite Hrun. }
  split; [by rewrite Hrun|]. split; [done|]. by rewrite Hmain.
Qed.

(** ** More on the analyzer and the merge *)

Lemma matching_cons pattern (entries : gmap string string) name :
  is_Some (entries !! name) → fnmatch pattern name = true →
  ∃ first rest, matching pattern entries = first :: rest.
Proof.
  intros Hsome Hm.
  destruct (matching pattern entries) as [|first rest] eqn:Hl; [|eauto].
  assert (name ∈ matching pattern entries) as Hin
    by (by apply elem_of_matching).
  rewrite Hl in Hin. by apply elem_of_nil in Hin.
Qed.

Lemma run_static_analysis_spawns w output_file st :
  with_js st EXTRACTED_JS_DIR →
  run_static_analysis w output_file st =
    (Ok (fst (fst (run_node w (analysis_cmd EXTRACTED_JS_DIR output_file)
                     STATIC_ANALYSIS_DIR (fs st))) =? 0)%Z,
     {| fs := snd (run_node w (analysis_cmd EXTRACTED_JS_DIR output_file)
                     STATIC_ANALYSIS_DIR (fs st));
        trace := trace st ++ [analysis_event EXTRACTED_JS_DIR output_file] |}).
Proof.
  intros (entries & name & Hd & Hsome & Hm).
  unfold run_static_analysis. unfold bind at 1. unfold exists_dir at 1.
  rewrite Hd. cbn [negb]. cbv beta iota. unfold bind at 1.
  rewrite glob_spec, Hd.
  destruct (matching_cons "*.js" entries name Hsome Hm) as (x & l & ->).
  cbv beta iota zeta. unfold bind. rewrite subprocess_run_spec.
  cbn [fst snd]. unfold analysis_event. by destruct (_ =? 0)%Z.
Qed.

Lemma run_static_analysis_only_spawns w js_directory output_file st :
  with_js st (target_dir js_directory) →
  run_static_analysis_only w js_directory output_file st =
    (Ok (fst (fst (run_node w
                     (analysis_cmd (absolute w (target_dir js_directory))
                        output_file)
                     STATIC_ANALYSIS_DIR (fs st))) =? 0)%Z,
     {| fs := snd (run_node w
                     (analysis_cmd (absolute w (target_dir js_directory))
                        output_file)
                     STATIC_ANALYSIS_DIR (fs st));
        trace := trace st ++
                 [analysis_event (absolute w (target_dir js_directory))
                    output_file] |}).
Proof.
  intros (entries & name & Hd & Hsome & Hm).
  unfold run_static_analysis_only. cbv zeta.
  unfold bind at 1. unfold exists_dir at 1.
  rewrite Hd. cbn [negb]. cbv beta iota. unfold bind at 1.
  rewrite glob_spec, Hd.
  destruct (matching_cons "*.js" entries name Hsome Hm) as (x & l & ->).
  cbv beta iota zeta. unfold bind. by rewrite subprocess_run_spec.
Qed.


Lemma with_or_without_js st d : with_js st d ∨ without_js st d.
Proof.
  unfold with_js, without_js.
  destruct (dirs (fs st) !! d) as [entries|]; [|by right].
  destruct (matching "*.js" entries) as [|name rest] eqn:Hl.
  - right. intros name Hsome.
    destruct (fnmatch "*.js" name) eqn:Hm; [|done].
    assert (name ∈ matching "*.js" entries) as Hin
      by (by apply elem_of_matching).
    rewrite Hl in Hin. by apply elem_of_nil in Hin.
  - left. assert (name ∈ matching "*.js" entries) as Hin
      by (rewrite Hl; by left).
    apply elem_of_matching in Hin as [Hsome Hm]. by exists entries, name.
Qed.

Lemma run_static_analysis_quiet w output_file st :
  without_js st EXTRACTED_JS_DIR →
  run_static_analysis w output_file st = (Ok false, st).
Proof.
  unfold without_js. intros Hnone.
  unfold run_static_analysis. unfold bind at 1. unfold exists_dir at 1.
  destruct (dirs (fs st) !! EXTRACTED_JS_DIR) as [entries|] eqn:Hd; [|done].
  cbn [negb]. cbv beta iota. unfold bind at 1.
  by rewrite glob_spec, Hd, matching_nil.
Qed.

Lemma run_static_analysis_only_quiet w js_directory output_file st :
  without_js st (target_dir js_directory) →
  run_static_analysis_only w js_directory output_file st = (Ok false, st).
Proof.
  unfold without_js. intros Hnone.
  unfold run_static_analysis_only. unfold bind at 1. unfold exists_dir at 1.
  destruct (dirs (fs st) !! target_dir js_directory) as [entries|] eqn:Hd;
    [|done].
  cbn [negb]. cbv beta iota zeta. unfold bind at 1.
  by rewrite glob_spec, Hd, matching_nil.
Qed.

(** X12. Without a directory, or with the empty string for it, the
    analysis-only function works on the default extraction directory:
    where [Path.absolute] leaves that directory's path as it is, it does
    what [run_static_analysis] does. *)
Theorem analysis_only_defaults_to_extracted w js_directory output_file st :
  (js_directory = None ∨ js_directory = Some "") →
  absolute w EXTRACTED_JS_DIR = EXTRACTED_JS_DIR →
  run_static_analysis_only w js_directory output_file st =
  run_static_analysis w output_file st.
Proof.
  intros Hdir Habs.
  assert (target_dir js_directory = EXTRACTED_JS_DIR) as Htarget
    by (by destruct Hdir as [-> | ->]).
  destruct (with_or_without_js st EXTRACTED_JS_DIR) as [Hjs|Hnone].
  - rewrite run_static_analysis_spawns by done.
    rewrite run_static_analysis_only_spawns by (by rewrite Htarget).
    by rewrite Htarget, Habs.
  - rewrite run_static_analysis_quiet by done.
    by rewrite run_static_analysis_only_quiet by (by rewrite Htarget).
Qed.



Create HintDb exceptions.

Lemma only_exceptions_ret {A} (a : A) : raises_only_exceptions (ret a).
Proof. by intros s e s' [=]. Qed.

Lemma only_exceptions_raise {A} e :
  is_Exception e = true → raises_only_exceptions (@raise A e).
Proof. by intros He s e' s' [= <- _]. Qed.

Lemma only_exceptions_bind {A B} (m : M A) (k : A → M B) :
  raises_only_exceptions m → (∀ a, raises_only_exceptions (k a)) →
  raises_only_exceptions (bind m k).
Proof.
  intros Hm Hk s e s'. unfold bind.
  destruct (m s) as [[a|e1] s1] eqn:Hms.
  - apply Hk.
  - intros [= <- <-]. by apply (Hm s e1 s1).
Qed.

Lemma only_exceptions_emit e : raises_only_exceptions (emit e).
Proof. by intros s e' s' [=]. Qed.

Lemma only_exceptions_read_file path : raises_only_exceptions (read_file path).
Proof.
  intros s e s'. unfold read_file.
  destruct (files (fs s) !! path); by intros [= <- _].
Qed.

Lemma only_exceptions_exists_file path :
  raises_only_exceptions (exists_file path).
Proof. by intros s e s' [=]. Qed.

Lemma only_exceptions_loads w source : raises_only_exceptions (loads w source).
Proof.
  unfold loads. destruct (json_load w source);
    [apply only_exceptions_ret | by apply only_exceptions_raise].
Qed.

Lemma only_exceptions_dict_get data key default :
  raises_only_exceptions (dict_get data key default).
Proof.
  destruct data; simpl;
    (apply only_exceptions_ret || by apply only_exceptions_raise).
Qed.

Lemma only_exceptions_dict_set data key v :
  raises_only_exceptions (dict_set data key v).
Proof.
  destruct data; simpl;
    (apply only_exceptions_ret || by apply only_exceptions_raise).
Qed.

Lemma only_exceptions_len v : raises_only_exceptions (len v).
Proof.
  destruct v; simpl;
    (apply only_exceptions_ret || by apply only_exceptions_raise).
Qed.

Lemma only_exceptions_print_fmt w values :
  raises_only_exceptions (print_fmt w values).
Proof.
  unfold print_fmt. destruct (forallb (printable w) values);
    [apply only_exceptions_ret | by apply only_exceptions_raise].
Qed.

Lemma only_exceptions_http_post_map w config :
  raises_only_exceptions (http_post_map w config).
Proof.
  intros s e s'. unfold http_post_map.
  destruct (post_map w config (fs s)) as [[resp|] f]; by intros [= <- _].
Qed.

Lemma only_exceptions_subprocess_run w cmd cwd :
  raises_only_exceptions (subprocess_run w cmd cwd).
Proof. intros s e s'. by rewrite subprocess_run_spec. Qed.

#[local] Hint Resolve only_exceptions_ret only_exceptions_emit
  only_exceptions_read_file only_exceptions_exists_file only_exceptions_loads
  only_exceptions_dict_get only_exceptions_dict_set only_exceptions_len
  only_exceptions_print_fmt only_exceptions_http_post_map
  only_exceptions_subprocess_run : exceptions.

Lemma only_exceptions_request_mapping w config_file start_url :
  raises_only_exceptions (request_mapping w config_file start_url).
Proof.
  unfold request_mapping.
  apply only_exceptions_bind; [auto with exceptions|intros source].
  apply only_exceptions_bind; [auto with exceptions|intros config].
  apply only_exceptions_bind.
  { destruct start_url as [[|a rest]|]; auto with exceptions. }
  intros config'.
  apply only_exceptions_bind; [auto with exceptions|intros shown].
  apply only_exceptions_bind; [auto with exceptions|intros _].
  apply only_exceptions_bind; [auto with exceptions|intros resp].
  destruct (status_code resp =? 200)%Z;
    repeat (apply only_exceptions_bind; [auto with exceptions|intros ?]);
    auto with exceptions.
Qed.

(** The capture step returns, or raises the timeout of its final
    wait. *)
Lemma run_noizz2025_outcome w config_file start_url st :
  ∃ r st',
    run_noizz2025 w config_file start_url st = (r, st') ∧
    ((∃ b, r = Ok b) ∨ r = Raise TimeoutExpired).
Proof.
  unfold run_noizz2025. unfold bind at 1. unfold emit at 1.
  unfold bind at 1.
  destruct (wait_for_server_spec w 30 0
              {| fs := fs st;
                 trace := trace st ++
                          [EvPopen [executable w; "api_server.py"] NOIZZ_DIR] |})
    as (ready & polls & -> & _).
  destruct ready; cbn [negb]; cbv beta iota.
  - unfold try_finally, try_except.
    destruct (request_mapping w config_file start_url _) as [[b|e] s1] eqn:Hr.
    + rewrite stop_server_spec.
      destruct (wait_ok w); do 2 eexists; (split; [reflexivity|]);
        [left; by exists b | by right].
    + rewrite (only_exceptions_request_mapping _ _ _ _ _ _ Hr).
      unfold ret. rewrite stop_server_spec.
      destruct (wait_ok w); do 2 eexists; (split; [reflexivity|]);
        [left; by exists false | by right].
  - unfold bind, emit, ret. do 2 eexists. split; [reflexivity|].
    left. by exists false.
Qed.

(** ** More on the merge step *)

(** X14. The merge step runs the merge tool exactly once, from the base
    directory, and then prints its warnings; it returns exactly when
    what the tool wrote is text and the merged output file the tool
    leaves is absent, or can be read and its summary shown, and raises
    otherwise; the files are as the tool left them. *)
Theorem merge_step_returns_iff_readable w st :
  let merge := run_node w merge_cmd BASE_DIR (fs st) in
  (fst (convert_and_merge_outputs w st) = Ok tt ↔
   merge_returns w merge = true) ∧
  fs (snd (convert_and_merge_outputs w st)) = snd merge ∧
  trace (snd (convert_and_merge_outputs w st)) =
    trace st ++ merge_event :: merge_warnings w merge.
Proof.
  intros merge.
  destruct (convert_and_merge_outputs_spec w st) as (e & He & ->).
  fold merge. cbn [fst snd fs trace]. split; [|done].
  destruct (merge_returns w merge); [done|].
  split; [|done]. by intros [=].
Qed.

(** ** More on the controller *)




(** The two modes that extract, up to the extraction. *)
Lemma main_extracting w argv args st st1 :
  parse_args argv no_args = Ok args →
  extraction_starts w args st st1 →
  main w argv st =
    match extract_js_from_json_files w st1 with
    | (Ok extracted, st2) =>
        if (extracted =? 0)%nat then (Raise (SystemExit 1), st2)
        else
          match convert_and_merge_outputs w
                  (snd (run_static_analysis w (output args) st2)) with
          | (Ok _, st4) =>
              (if skip_capture args then Raise (SystemExit 0) else Ok tt, st4)
          | (Raise e, st4) => (Raise e, st4)
          end
    | (Raise e, st2) => (Raise e, st2)
    end.
Proof.
  intros Hparse [Hmode1 Hstart]. unfold main. rewrite Hparse, Hmode1.
  destruct (skip_capture args).
  - destruct Hstart as [[src Hsrc] ->].
    unfold bind at 1. unfold exists_dir at 1. rewrite Hsrc.
    cbn [negb]. cbv beta iota.
    unfold bind at 1. unfold ret at 1. unfold bind at 1.
    destruct (extract_js_from_json_files w st) as [[n|e] st2]; [|done].
    destruct n as [|n]; [done|].
    cbn [Nat.ltb Nat.leb Nat.eqb]. cbv beta iota.
    unfold bind at 1. unfold bind at 1.
    destruct (run_static_analysis_returns w (output args) st2) as [b Hb].
    destruct (run_static_analysis w (output args) st2) as [r s].
    simpl in Hb. subst r. cbn [snd].
    by destruct (convert_and_merge_outputs w s) as [[[]|e] s4].
  - unfold bind at 1. rewrite Hstart. cbn [negb]. cbv beta iota.
    unfold bind at 1. unfold ret at 1. unfold bind at 1.
    destruct (extract_js_from_json_files w st1) as [[n|e] st2]; [|done].
    destruct n as [|n]; [done|].
    cbn [Nat.eqb]. cbv beta iota.
    unfold bind at 1. unfold ret at 1. unfold bind at 1.
    destruct (run_static_analysis_returns w (output args) st2) as [b Hb].
    destruct (run_static_analysis w (output args) st2) as [r s].
    simpl in Hb. subst r. cbn [snd].
    by destruct (convert_and_merge_outputs w s) as [[[]|e] s4].
Qed.

(** X15. In skip-capture mode without the directory of capture records,
    the process ends with exit status 1 and nothing was done: no
    directory created, no file removed. *)
Theorem skip_capture_needs_records w argv args st :
  parse_args argv no_args = Ok args →
  analyze_only args = false →
  skip_capture args = true →
  dirs (fs st) !! JS_FILES_JSON_DIR = None →
  main w argv st = (Raise (SystemExit 1), st) ∧
  exit_status (fst (main w argv st)) = 1%Z.
Proof.
  intros Hparse Hmode1 Hmode2 Hnone.
  assert (main w argv st = (Raise (SystemExit 1), st)) as Hmain.
  { unfold main. rewrite Hparse, Hmode1, Hmode2.
    unfold bind at 1. unfold exists_dir at 1. by rewrite Hnone. }
  by rewrite Hmain.
Qed.

(** X16. In both modes that extract, an extraction that returns 0 ends
    the process with exit status 1 in the state the extraction left:
    neither the analyzer nor the merge tool is run. *)
Theorem zero_extraction_is_fatal w argv args st st1 st2 :
  parse_args argv no_args = Ok args →
  extraction_starts w args st st1 →
  extract_js_from_json_files w st1 = (Ok 0%nat, st2) →
  main w argv st = (Raise (SystemExit 1), st2) ∧
  exit_status (fst (main w argv st)) = 1%Z.
Proof.
  intros Hparse Hstart Hextract.
  rewrite (main_extracting w argv args st st1 Hparse Hstart), Hextract.
  done.
Qed.



(** X19. In full-pipeline mode a capture step that does not return
    [True] ends the process with exit status 1 in the state the capture
    step left: nothing is extracted, analysed or merged. *)
Theorem capture_failure_aborts w argv args st :
  parse_args argv no_args = Ok args →
  analyze_only args = false →
  skip_capture args = false →
  fst (run_noizz2025 w (config args) (url args) st) ≠ Ok true →
  snd (main w argv st) = snd (run_noizz2025 w (config args) (url args) st) ∧
  exit_status (fst (main w argv st)) = 1%Z.
Proof.
  intros Hparse Hmode1 Hmode2 Hfail.
  destruct (run_noizz2025_outcome w (config args) (url args) st)
    as (r & st' & Hrun & [[b ->] | ->]); rewrite Hrun in *; cbn [fst snd] in *.
  - destruct b; [done|].
    assert (main w argv st = (Raise (SystemExit 1), st')) as ->; [|done].
    unfold main. rewrite Hparse, Hmode1, Hmode2. unfold bind at 1.
    by rewrite Hrun.
  - assert (main w argv st = (Raise TimeoutExpired, st')) as ->; [|done].
    unfold main. rewrite Hparse, Hmode1, Hmode2. unfold bind at 1.
    by rewrite Hrun.
Qed.



(** * Instances of the further properties *)

Lemma script_name_replaces_extension_witness :
  stem ("bundle.min" +:+ ".json") +:+ ".js" = "bundle.min" +:+ ".js".
Proof.
  apply (script_name_replaces_extension "bundle.min"). discriminate.
Defined.

Lemma extract_loop_counts_every_record_witness :
  let src : gmap string string :=
    <["a.json" := record_a]> {["b.json" := record_b]} in
  let names := ["a.json"; "b.json"] in
  let skipped :=
    length (List.filter (fun r => negb (extractable healthy_world src r))
              names) in
  ∃ n' f' st',
    extract_loop healthy_world names (0%nat, 0%nat) used
      = ((Ok tt, (n', f')), st') ∧
    n' = (0 + length (List.filter (extractable healthy_world src) names))%nat ∧
    (0 + skipped ≤ f' ≤ 0 + 2 * skipped)%nat.
Proof.
  apply (extract_loop_counts_every_record healthy_world ["a.json"; "b.json"]
           0 0 used (<["a.json" := record_a]> {["b.json" := record_b]})
           (<["old.js" := "alert(0)"]> {["notes.txt" := "keep"]})).
  - vm_compute. reflexivity.
  - vm_compute. reflexivity.
  - vm_compute. reflexivity.
Defined.

Lemma extract_without_source_witness :
  extract_js_from_json_files healthy_world orphaned =
    (Ok 0%nat,
     with_out (prepared orphaned) (cleared (out_entries orphaned))
       (EvUnlink EXTRACTED_JS_DIR <$> matching "*.js" (out_entries orphaned))) ∧
  is_Some (dirs (fs (snd (extract_js_from_json_files healthy_world orphaned)))
             !! EXTRACTED_JS_DIR) ∧
  ∀ name,
    out_entries (snd (extract_js_from_json_files healthy_world orphaned))
      !! name =
    if fnmatch "*.js" name then None else out_entries orphaned !! name.
Proof.
  apply (extract_without_source healthy_world orphaned).
  vm_compute. reflexivity.
Defined.

Lemma extract_final_contents_witness :
  out_entries (snd (extract_js_from_json_files healthy_world used))
    !! (stem "a.json" +:+ ".js") =
  Some (if utf8_encodable "console.log(1)"
        then text_mode healthy_world "console.log(1)" else "").
Proof.
  apply (extract_final_contents healthy_world used "a.json" record_a).
  - vm_compute. reflexivity.
  - vm_compute. reflexivity.
  - vm_compute. reflexivity.
  - vm_compute. reflexivity.
  - vm_compute. reflexivity.
Defined.

Lemma extract_count_is_number_of_scripts_witness :
  ∃ n,
    fst (extract_js_from_json_files healthy_world tainted) = Ok n ∧
    length (matching "*.js"
              (out_entries
                 (snd (extract_js_from_json_files healthy_world tainted)))) =
    (n + length (List.filter (emptied healthy_world (src_entries tainted))
                   (records tainted)))%nat.
Proof.
  apply (extract_count_is_number_of_scripts healthy_world tainted).
  - vm_compute. reflexivity.
  - vm_compute. reflexivity.
Defined.

Lemma polling_stops_at_first_healthy_witness :
  wait_for_server healthy_world 30 0 fresh =
    if (2 <? 30)%nat
    then (Ok true, logged fresh (poll_events 2 ++ [EvGet health_url 2]))
    else (Ok false, logged fresh (poll_events 30)).
Proof.
  apply (polling_stops_at_first_healthy healthy_world 30 2 fresh).
  split; [reflexivity|].
  intros [|[|j]] Hj; [discriminate | discriminate | lia].
Defined.

Lemma capture_fails_without_config_witness :
  run_noizz2025 healthy_world None None bare =
    (if wait_ok healthy_world then Ok false else Raise TimeoutExpired,
     logged bare
       (ready_events healthy_world 2 ++
        [kill_event healthy_world; EvWait 5])).
Proof.
  apply (capture_fails_without_config healthy_world None None bare 2).
  - split; [reflexivity|].
    intros [|[|j]] Hj; [discriminate | discriminate | lia].
  - lia.
  - vm_compute. reflexivity.
Defined.

Lemma start_url_overrides_config_witness :
  let cfg : gmap string json :=
    {["start_url" := JStr "http://localhost:4200"]} in
  let start_url := Some "http://localhost:8080" in
  ∃ sent,
    trace (snd (run_noizz2025 healthy_world None start_url fresh)) =
      trace fresh ++ ready_events healthy_world 2 ++
      (if printable healthy_world (shown_start_url cfg start_url)
       then [post_event (JObj sent)] else []) ++
      [kill_event healthy_world; EvWait 5] ∧
    (∀ key, key ≠ "start_url" → sent !! key = cfg !! key) ∧
    sent !! "start_url" = Some (JStr "http://localhost:8080").
Proof.
  apply (start_url_overrides_config healthy_world None
           (Some "http://localhost:8080") fresh 2
           {["start_url" := JStr "http://localhost:4200"]}).
  - split; [reflexivity|].
    intros [|[|j]] Hj; [discriminate | discriminate | lia].
  - lia.
  - vm_compute. reflexivity.
Defined.

Lemma wait_timeout_is_fatal_witness :
  fst (run_noizz2025 hanging_world (config no_args) (url no_args) fresh)
    = Raise TimeoutExpired ∧
  main hanging_world [] fresh =
    (Raise TimeoutExpired,
     snd (run_noizz2025 hanging_world (config no_args) (url no_args) fresh)) ∧
  exit_status (fst (main hanging_world [] fresh)) = 1%Z.
Proof.
  apply (wait_timeout_is_fatal hanging_world [] no_args fresh 2).
  - split; [reflexivity|].
    intros [|[|j]] Hj; [discriminate | discriminate | lia].
  - lia.
  - reflexivity.
  - reflexivity.
  - reflexivity.
  - reflexivity.
Defined.


Lemma analysis_only_defaults_to_extracted_witness :
  run_static_analysis_only dead_world (Some "") None used =
  run_static_analysis dead_world None used.
Proof.
  apply (analysis_only_defaults_to_extracted dead_world (Some "") None used).
  - right. reflexivity.
  - reflexivity.
Defined.


Lemma skip_capture_needs_records_witness :
  main healthy_world ["--skip-capture"] fresh = (Raise (SystemExit 1), fresh) ∧
  exit_status (fst (main healthy_world ["--skip-capture"] fresh)) = 1%Z.
Proof.
  apply (skip_capture_needs_records healthy_world ["--skip-capture"]
           (with_skip_capture no_args) fresh).
  - reflexivity.
  - reflexivity.
  - reflexivity.
  - vm_compute. reflexivity.
Defined.

Lemma zero_extraction_is_fatal_witness :
  main healthy_world ["--skip-capture"] barren =
    (Raise (SystemExit 1),
     snd (extract_js_from_json_files healthy_world barren)) ∧
  exit_status (fst (main healthy_world ["--skip-capture"] barren)) = 1%Z.
Proof.
  apply (zero_extraction_is_fatal healthy_world ["--skip-capture"]
           (with_skip_capture no_args) barren barren).
  - reflexivity.
  - split; [reflexivity|]. split; [|reflexivity]. vm_compute. eauto.
  - vm_compute. reflexivity.
Defined.



Lemma capture_failure_aborts_witness :
  snd (main dead_world [] fresh)
    = snd (run_noizz2025 dead_world (config no_args) (url no_args) fresh) ∧
  exit_status (fst (main dead_world [] fresh)) = 1%Z.
Proof.
  apply (capture_failure_aborts dead_world [] no_args fresh).
  - reflexivity.
  - reflexivity.
  - reflexivity.
  - vm_compute. discriminate.
Defined.
